(** * django_pgschemas.models: tenant lifecycle and domain routing

    A shallow embedding of [src/django_pgschemas/models.py]
    ([TenantMixin] and [DomainMixin]) together with the properties that
    the specification states about it.

    The Python methods work on a relational database, on the shared
    connection and on in-memory model instances.  Each of these is an
    explicit component of a state that the embedded methods thread
    through; a raised exception is a [Raise] result.  *)

From Stdlib Require Import Ascii String.
From stdpp Require Import gmap strings list.

(** ** Exceptions and the state-and-exception monad *)

(** The exceptions that cross the methods of [models.py].  The numbered
    ones stand for arbitrary errors of the database driver and of signal
    receivers. *)
Inductive exn : Type :=
  | ValidationError
  | IntegrityError
  | AlreadyExists
  | AttributeError
  | ValueError
  | DatabaseError (code : nat)
  | ReceiverError (code : nat).

Inductive result (A : Type) : Type :=
  | Ok (a : A)
  | Raise (e : exn).
Arguments Ok {A} a.
Arguments Raise {A} e.

Definition is_ok {A} (r : result A) : bool :=
  match r with Ok _ => true | Raise _ => false end.

(** A Python method over a store [S]: it returns or raises, and in both
    cases leaves a store behind (nothing is undone unless somebody undoes
    it). *)
Definition M (S A : Type) : Type := S -> result A * S.

Definition ret {S A} (a : A) : M S A := fun s => (Ok a, s).
Definition raise {S A} (e : exn) : M S A := fun s => (Raise e, s).
Definition bind {S A B} (m : M S A) (k : A -> M S B) : M S B :=
  fun s => match m s with
           | (Ok a, s') => k a s'
           | (Raise e, s') => (Raise e, s')
           end.
Definition get {S} : M S S := fun s => (Ok s, s).
Definition modify {S} (f : S -> S) : M S unit := fun s => (Ok tt, f s).

(** [try: body except Exception: handler; raise].  The bare [raise]
    re-raises the exception that was caught, unless the handler itself
    raises: then the handler's exception is the one that propagates. *)
Definition try_except_reraise {S A} (body : M S A) (handler : M S unit) : M S A :=
  fun s => match body s with
           | (Ok a, s') => (Ok a, s')
           | (Raise e, s') =>
               match handler s' with
               | (Ok _, s'') => (Raise e, s'')
               | (Raise e', s'') => (Raise e', s'')
               end
           end.

Declare Scope py_scope.
Delimit Scope py_scope with py.
Notation "x <~ m ;; k" := (bind m (fun x => k))
  (at level 100, m at next level, right associativity) : py_scope.
Notation "m ;;; k" := (bind m (fun _ => k))
  (at level 100, right associativity) : py_scope.
Open Scope py_scope.

(** ** DomainMixin *)

Module DomainMixin.

(** A model instance in memory: [pk] is [None] until the first save. *)
Record domain_obj : Type := Domain {
  pk : option nat;
  domain : string;
  tenant : nat;
  is_primary : bool;
}.

(** [is_primary = models.BooleanField(default=True)]: an instance built
    without the field set. *)
Definition new_domain (d : string) (t : nat) : domain_obj :=
  {| pk := None; domain := d; tenant := t; is_primary := true |}.

(** A row of the domain table; the table maps primary keys to rows. *)
Record domain_row : Type := Row {
  row_domain : string;
  row_tenant : nat;
  row_primary : bool;
}.

#[global] Instance domain_row_eq_dec : EqDecision domain_row.
Proof. solve_decision. Defined.

(** The table, and the sequence that hands out primary keys. *)
Record db : Type := Db {
  rows : gmap nat domain_row;
  seq : nat;
}.

(** Where a database error can be made to strike inside [save]. *)
Inductive stage : Type := AtExists | AtUpdate | AtSave.

Definition faults : Type := stage -> option exn.
Definition no_faults : faults := fun _ => None.

Definition fault_at (flt : faults) (st : stage) : M db unit :=
  match flt st with
  | Some e => raise e
  | None => ret tt
  end.

(** A lazy queryset is the predicate of its WHERE clause. *)
Definition queryset : Type := nat -> domain_row -> bool.

(** [objects.filter(tenant=self.tenant, is_primary=True).exclude(pk=self.pk)].
    With [self.pk] unset, [exclude(pk=None)] excludes no row. *)
Definition other_primaries (self : domain_obj) : queryset :=
  fun k r =>
    bool_decide (row_tenant r = tenant self) && row_primary r &&
    match pk self with
    | Some k0 => negb (bool_decide (k = k0))
    | None => true
    end.

Definition selects (qs : queryset) (m : gmap nat domain_row) : bool :=
  bool_decide (map_Exists (fun k r => qs k r = true) m).

(** [qs.exists()] *)
Definition qs_exists (flt : faults) (qs : queryset) : M db bool :=
  fault_at flt AtExists ;;;
  d <~ get ;;
  ret (selects qs (rows d)).

Definition demote (r : domain_row) : domain_row :=
  {| row_domain := row_domain r; row_tenant := row_tenant r; row_primary := false |}.

Definition demote_in (qs : queryset) (k : nat) (r : domain_row) : domain_row :=
  if qs k r then demote r else r.

(** [qs.update(is_primary=False)] *)
Definition qs_update_demote (flt : faults) (qs : queryset) : M db unit :=
  fault_at flt AtUpdate ;;;
  modify (fun d => {| rows := map_imap (fun k r => Some (demote_in qs k r)) (rows d);
                      seq := seq d |}).

(** The unique index on [domain]: does a row other than [k] hold [s]? *)
Definition domain_taken (s : string) (k : nat) (m : gmap nat domain_row) : bool :=
  bool_decide (map_Exists (fun j r => row_domain r = s /\ j ≠ k) m).

Definition row_of (self : domain_obj) : domain_row :=
  {| row_domain := domain self; row_tenant := tenant self;
     row_primary := is_primary self |}.

Definition set_pk (self : domain_obj) (k : nat) : domain_obj :=
  {| pk := Some k; domain := domain self; tenant := tenant self;
     is_primary := is_primary self |}.

Definition put_row (k : nat) (r : domain_row) : M db unit :=
  modify (fun d => {| rows := <[ k := r ]> (rows d); seq := seq d |}).

Definition nextval : M db nat :=
  d <~ get ;;
  modify (fun d => {| rows := rows d; seq := S (seq d) |}) ;;;
  ret (seq d).

(** [models.Model.save] ([super().save()]).  With [self.pk] set: UPDATE
    the row of that key, and INSERT it when no row was updated; either
    way the key then holds the fields of [self].  With [self.pk] unset:
    INSERT under the next value of the sequence.  A duplicate key or
    domain is an [IntegrityError]. *)
Definition model_save (flt : faults) (self : domain_obj) : M db domain_obj :=
  fault_at flt AtSave ;;;
  match pk self with
  | Some k =>
      d <~ get ;;
      if domain_taken (domain self) k (rows d) then raise IntegrityError
      else put_row k (row_of self) ;;; ret self
  | None =>
      k <~ nextval ;;
      d <~ get ;;
      if domain_taken (domain self) k (rows d) || bool_decide (is_Some (rows d !! k))
      then raise IntegrityError
      else put_row k (row_of self) ;;; ret (set_pk self k)
  end.

(** [@transaction.atomic]: when the body raises, the table is put back as
    it was on entry and the exception goes on.  Values drawn from a
    sequence are not given back. *)
Definition atomic {A} (body : M db A) : M db A :=
  fun d => match body d with
           | (Ok a, d') => (Ok a, d')
           | (Raise e, d') => (Raise e, {| rows := rows d; seq := seq d' |})
           end.

Definition set_is_primary (self : domain_obj) (b : bool) : domain_obj :=
  {| pk := pk self; domain := domain self; tenant := tenant self; is_primary := b |}.

(** [self.is_primary or (not domain_list.exists())] *)
Definition effective (self : domain_obj) (d : db) : bool :=
  is_primary self || negb (selects (other_primaries self) (rows d)).

(** [DomainMixin.save].  The result is [self] as the method leaves it. *)
Definition save (flt : faults) (self : domain_obj) : M db domain_obj :=
  atomic (
    let domain_list := other_primaries self in
    others <~ qs_exists flt domain_list ;;
    let self := set_is_primary self (is_primary self || negb others) in
    (if is_primary self then qs_update_demote flt domain_list else ret tt) ;;;
    model_save flt self).

(** *** What the specification talks about *)

(** The domains of a tenant, and those of them marked primary. *)
Definition domains_of (t : nat) (d : db) : gmap nat domain_row :=
  filter (fun kr => row_tenant kr.2 = t) (rows d).

Definition primaries_of (t : nat) (d : db) : gmap nat domain_row :=
  filter (fun kr => row_tenant kr.2 = t /\ row_primary kr.2 = true) (rows d).

(** "The set of other domains for the same tenant currently marked
    primary (excluding this domain's own identity if it already exists)". *)
Definition other_primary_set (self : domain_obj) (d : db) : gmap nat domain_row :=
  filter (fun kr => row_tenant kr.2 = tenant self /\ row_primary kr.2 = true /\
                    pk self ≠ Some kr.1) (rows d).

(** "True if the caller requested it OR if that set is empty". *)
Definition effective_is_primary (self : domain_obj) (d : db) : bool :=
  is_primary self || bool_decide (other_primary_set self d = ∅).

(** A caller's history: one [save] after the other, whatever each of them
    returns. *)
Definition request : Type := (faults * domain_obj)%type.

Definition step (d : db) (rq : request) : db := (save rq.1 rq.2 d).2.

Fixpoint run (rqs : list request) (d : db) : db :=
  match rqs with
  | [] => d
  | rq :: rqs' => run rqs' (step d rq)
  end.

(** A save that hands a stored domain of tenant [t] to another tenant. *)
Definition takes_away (t : nat) (d : db) (rq : request) : bool :=
  match pk rq.2 with
  | Some k =>
      match rows d !! k with
      | Some r => bool_decide (row_tenant r = t) && negb (bool_decide (tenant rq.2 = t))
      | None => false
      end
  | None => false
  end.

Fixpoint none_taken_away (t : nat) (rqs : list request) (d : db) : bool :=
  match rqs with
  | [] => true
  | rq :: rqs' => negb (takes_away t d rq) && none_taken_away t rqs' (step d rq)
  end.

(** Primary-domain uniqueness, as the specification words it. *)
Definition primary_unique (t : nat) (d : db) : Prop :=
  size (primaries_of t d) ≤ 1 /\
  (domains_of t d ≠ ∅ -> size (primaries_of t d) = 1).

(** *** The table a successful [save] leaves, and the invariants *)

(** The key that [save] writes: the one of [self], or a fresh one. *)
Definition key_of (self : domain_obj) (k : nat) (d : db) : Prop :=
  pk self = Some k \/ (pk self = None /\ rows d !! k = None).

Definition saved_rows (self : domain_obj) (k : nat) (d : db) : gmap nat domain_row :=
  <[ k := row_of (set_is_primary self (effective self d)) ]>
    (if effective self d
     then map_imap (fun j r => Some (demote_in (other_primaries self) j r)) (rows d)
     else rows d).

Definition primary_of (t : nat) (r : domain_row) : Prop :=
  row_tenant r = t /\ row_primary r = true.

Definition at_most_one (t : nat) (m : gmap nat domain_row) : Prop :=
  forall j1 j2 r1 r2,
    m !! j1 = Some r1 -> m !! j2 = Some r2 ->
    primary_of t r1 -> primary_of t r2 -> j1 = j2.

Definition has_primary (t : nat) (m : gmap nat domain_row) : Prop :=
  exists j r, m !! j = Some r /\ primary_of t r.

(** *** A history *)

(** Two domains for tenant 7, the second one not primary; then the
    first one is handed to tenant 8. *)
Definition handed_over : list request :=
  [ (no_faults, Domain None "a.example.com" 7 true);
    (no_faults, Domain None "b.example.com" 7 false);
    (no_faults, Domain (Some 1) "a.example.com" 8 true) ].

Definition empty_db : db := Db ∅ 1.

(** The table after the first two saves of [handed_over]. *)
Definition two_domains : db := run (take 2 handed_over) empty_db.

(** A database error when the row of [self] is written. *)
Definition save_fails : faults :=
  fun st => match st with AtSave => Some (DatabaseError 40) | _ => None end.

End DomainMixin.

(** ** TenantMixin *)

Module TenantMixin.

(** A tenant instance in memory.  [auto_create_schema] and
    [auto_drop_schema] are class attributes, read through the instance;
    [previous_schema] is the attribute that [__enter__] sets. *)
Record tenant_obj : Type := Tenant {
  pk : option nat;
  schema_name : string;
  auto_create_schema : bool;
  auto_drop_schema : bool;
  previous_schema : option string;
}.

(** *** The naming rule and the field it is attached to *)

Section Validation.

(** The reserved names are not listed by the specification. *)
Variable reserved : list string.












End Validation.

(** *** The database, the catalog and the signals *)

(** A row of the tenant table, which maps primary keys to rows; the
    fields that a tenant model adds play no part here. *)
Record tenant_row : Type := Row {
  row_schema_name : string;
}.

#[global] Instance tenant_row_eq_dec : EqDecision tenant_row.
Proof. solve_decision. Defined.

(** The three signals that [models.py] imports from [signals.py]. *)
Inductive signal : Type := schema_post_sync | schema_needs_sync | schema_pre_drop.

#[global] Instance signal_eq_dec : EqDecision signal.
Proof. solve_decision. Defined.

(** What the methods do to the outside, in the order they do it. *)
Inductive action : Type :=
  | InsertRow (k : nat) (name : string)
  | UpdateRow (k : nat) (name : string)
  | DeleteRow (k : nat)
  | CreateSchema (name : string)
  | DropSchema (name : string)
  | Send (sig : signal) (k : option nat) (name : string).

#[global] Instance action_eq_dec : EqDecision action.
Proof. solve_decision. Defined.

Definition is_ddl (a : action) : bool :=
  match a with
  | CreateSchema _ | DropSchema _ => true
  | _ => false
  end.

Record world : Type := World {
  rows : gmap nat tenant_row;    (* the tenant table *)
  seq : nat;                     (* its primary-key sequence *)
  catalog : gset string;         (* the namespaces that exist *)
  log : list action;             (* oldest first *)
}.

(** A receiver returns or raises. *)
Definition receiver : Type := tenant_obj -> option exn.

(** What the run depends on from outside [models.py]: the receivers
    connected to each signal, and whether the creation of a namespace
    (the DDL, or the sync that follows it) fails, with which error, and
    whether it leaves the namespace behind half-made. *)
Record env : Type := Env {
  receivers : signal -> list receiver;
  ddl_fault : string -> option (exn * bool);
}.

Definition emit (a : action) : M world unit :=
  modify (fun w => {| rows := rows w; seq := seq w; catalog := catalog w;
                      log := log w ++ [a] |}).

Definition set_catalog (f : gset string -> gset string) : M world unit :=
  modify (fun w => {| rows := rows w; seq := seq w; catalog := f (catalog w);
                      log := log w |}).

Definition set_rows (f : gmap nat tenant_row -> gmap nat tenant_row) : M world unit :=
  modify (fun w => {| rows := f (rows w); seq := seq w; catalog := catalog w;
                      log := log w |}).

Fixpoint call_receivers (rs : list receiver) (t : tenant_obj) : M world unit :=
  match rs with
  | [] => ret tt
  | r :: rs' =>
      match r t with
      | Some e => raise e
      | None => call_receivers rs' t
      end
  end.

(** [django.dispatch.Signal.send]: the receivers are called in turn, and
    an exception of a receiver is not caught. *)
Definition send (E : env) (sig : signal) (t : tenant_obj) : M world unit :=
  emit (Send sig (pk t) (schema_name t)) ;;;
  call_receivers (receivers E sig) t.

(** Modelled from the spec: [schema_exists] of [utils.py], which is not
    among the sources.  [Exists(name)] queries the catalog and never
    mutates. *)
Definition schema_exists (name : string) : M world bool :=
  w <~ get ;; ret (bool_decide (name ∈ catalog w)).

(** Modelled from the spec: [create_schema] of [utils.py], which is not
    among the sources.  [Create(name, failIfExists)]: an existing
    namespace is an [AlreadyExists] error without side effects when the
    flag is set, and success otherwise; the DDL can fail.  The arguments
    [sync_schema] and [verbosity] of the call do not change what the
    methods of [models.py] see of it.  (The function is [create_schema]
    in [utils.py]; the method of that name, below, calls it.) *)
Definition utils_create_schema (E : env) (name : string) (check_if_exists : bool)
  : M world bool :=
  w <~ get ;;
  if check_if_exists && bool_decide (name ∈ catalog w) then raise AlreadyExists
  else
    emit (CreateSchema name) ;;;
    match ddl_fault E name with
    | Some (e, partial) =>
        (if partial then set_catalog (fun c => {[ name ]} ∪ c) else ret tt) ;;;
        raise e
    | None =>
        set_catalog (fun c => {[ name ]} ∪ c) ;;;
        ret true
    end.

(** Modelled from the spec: [drop_schema] of [utils.py], which is not
    among the sources.  [Drop(name)] is a cascading drop, and dropping a
    namespace that does not exist is a success. *)
Definition utils_drop_schema (name : string) : M world unit :=
  emit (DropSchema name) ;;;
  set_catalog (fun c => c ∖ {[ name ]}).

(** The unique index on [schema_name]: does a row other than [k] hold [s]? *)
Definition name_taken (s : string) (k : nat) (m : gmap nat tenant_row) : bool :=
  bool_decide (map_Exists (fun j r => row_schema_name r = s /\ j ≠ k) m).

Definition set_pk (self : tenant_obj) (k : nat) : tenant_obj :=
  {| pk := Some k; schema_name := schema_name self;
     auto_create_schema := auto_create_schema self;
     auto_drop_schema := auto_drop_schema self;
     previous_schema := previous_schema self |}.

Definition nextval : M world nat :=
  w <~ get ;;
  modify (fun w => {| rows := rows w; seq := S (seq w); catalog := catalog w;
                      log := log w |}) ;;;
  ret (seq w).

(** [models.Model.save] ([super().save()]).  With [self.pk] set: UPDATE
    the row of that key, and INSERT it when no row was updated.  With
    [self.pk] unset: INSERT under the next value of the sequence.  A
    duplicate key or name is an [IntegrityError].  No field is validated
    here: validators run in [full_clean]. *)
Definition model_save (self : tenant_obj) : M world tenant_obj :=
  match pk self with
  | Some k =>
      w <~ get ;;
      if name_taken (schema_name self) k (rows w) then raise IntegrityError
      else
        emit (if bool_decide (is_Some (rows w !! k))
              then UpdateRow k (schema_name self)
              else InsertRow k (schema_name self)) ;;;
        set_rows (insert k (Row (schema_name self))) ;;;
        ret self
  | None =>
      k <~ nextval ;;
      w <~ get ;;
      if name_taken (schema_name self) k (rows w) || bool_decide (is_Some (rows w !! k))
      then raise IntegrityError
      else
        emit (InsertRow k (schema_name self)) ;;;
        set_rows (insert k (Row (schema_name self))) ;;;
        ret (set_pk self k)
  end.

(** [models.Model.delete] ([super().delete()]) *)
Definition model_delete (self : tenant_obj) : M world unit :=
  match pk self with
  | None => raise ValueError
  | Some k =>
      emit (DeleteRow k) ;;;
      set_rows (delete k)
  end.

(** *** The methods of [TenantMixin] *)

Definition serializable_fields (self : tenant_obj) : tenant_obj := self.

Definition create_schema (E : env) (self : tenant_obj) (check_if_exists : bool)
  : M world bool :=
  utils_create_schema E (schema_name self) check_if_exists.

Definition drop_schema (self : tenant_obj) : M world unit :=
  utils_drop_schema (schema_name self).

Definition delete (E : env) (self : tenant_obj) (force_drop : bool) : M world unit :=
  (if force_drop || auto_drop_schema self then
     send E schema_pre_drop (serializable_fields self) ;;;
     drop_schema self
   else ret tt) ;;;
  model_delete self.

Definition save (E : env) (self : tenant_obj) : M world tenant_obj :=
  let is_new := bool_decide (pk self = None) in
  self <~ model_save self ;;
  if is_new && auto_create_schema self then
    try_except_reraise
      (create_schema E self true ;;;
       send E schema_post_sync (serializable_fields self))
      (delete E self true) ;;;
    ret self
  else if is_new then
    send E schema_needs_sync (serializable_fields self) ;;;
    ret self
  else
    missing <~ (if negb is_new && auto_create_schema self
                then (e <~ schema_exists (schema_name self) ;; ret (negb e))
                else ret false) ;;
    if missing then
      try_except_reraise
        (create_schema E self true ;;;
         send E schema_post_sync (serializable_fields self))
        (drop_schema self) ;;;
      ret self
    else ret self.


(** *** The connection and the scoped activation *)

(** The connection's active namespace, and the instances the running
    code holds, by reference: two [with] statements on one instance
    share its [previous_schema]. *)
Record session : Type := Session {
  active : string;                 (* connection.schema_name *)
  heap : gmap nat tenant_obj;
}.

(** Modelled from the spec: [connection.set_schema] of
    [postgresql_backend/base.py], which is not among the sources.
    [Activate(namespaceName)] sets the namespace applied to subsequent
    operations. *)
Definition set_schema (name : string) : M session unit :=
  modify (fun s => {| active := name; heap := heap s |}).

(** Modelled from the spec: [connection.set_schema_to_public].
    [Deactivate()] resets to the public namespace. *)
Definition set_schema_to_public : M session unit := set_schema "public".

(** Attribute access through a reference. *)
Definition load (l : nat) : M session tenant_obj :=
  s <~ get ;;
  match heap s !! l with
  | Some o => ret o
  | None => raise AttributeError
  end.

Definition set_previous_schema (self : tenant_obj) (p : string) : tenant_obj :=
  {| pk := pk self; schema_name := schema_name self;
     auto_create_schema := auto_create_schema self;
     auto_drop_schema := auto_drop_schema self;
     previous_schema := Some p |}.

Definition activate (l : nat) : M session unit :=
  self <~ load l ;;
  set_schema (schema_name self).

Definition deactivate : M session unit := set_schema_to_public.

Definition enter (l : nat) : M session unit :=
  self <~ load l ;;
  s <~ get ;;
  modify (fun s => {| active := active s;
                      heap := <[ l := set_previous_schema self (active s) ]> (heap s) |}) ;;;
  activate l.

Definition exit (l : nat) : M session unit :=
  self <~ load l ;;
  match previous_schema self with
  | Some p => set_schema p
  | None => raise AttributeError
  end.

(** [with t: body].  [__exit__] runs when the body returns and when it
    raises; it returns [None], so the body's exception goes on. *)
Definition with_tenant {A} (l : nat) (body : M session A) : M session A :=
  fun s =>
    match enter l s with
    | (Raise e, s1) => (Raise e, s1)
    | (Ok _, s1) =>
        let '(r, s2) := body s1 in
        match exit l s2 with
        | (Ok _, s3) => (r, s3)
        | (Raise e, s3) => (Raise e, s3)
        end
    end.

(** *** What the specification talks about *)

(** The exception that a [send] lets through: the one of the first
    receiver that raises. *)
Fixpoint first_error (rs : list receiver) (t : tenant_obj) : option exn :=
  match rs with
  | [] => None
  | r :: rs' =>
      match r t with
      | Some e => Some e
      | None => first_error rs' t
      end
  end.

(** No receiver of [sig] raises on [t]. *)
Definition quiet (E : env) (sig : signal) (t : tenant_obj) : Prop :=
  first_error (receivers E sig) t = None.

(** The key under which [save] writes the row of [self]. *)
Definition key_after (self : tenant_obj) (w : world) : nat :=
  match pk self with Some k => k | None => seq w end.

(** The row of [self] can be written: no other row holds its name, and
    the key that the sequence hands out is free. *)
Definition row_save_ok (self : tenant_obj) (w : world) : bool :=
  negb (name_taken (schema_name self) (key_after self w) (rows w)) &&
  match pk self with
  | None => bool_decide (rows w !! seq w = None)
  | Some _ => true
  end.

(** Creating the namespace of [self] raises [e]. *)
Definition creation_raises (E : env) (self : tenant_obj) (w : world) (e : exn) : Prop :=
  (create_schema E self true w).1 = Raise e.


(** Nothing was dropped or deleted between [w] and [w']. *)
Definition no_cleanup (w w' : world) : Prop :=
  exists l, log w' = log w ++ l /\
            Forall (fun a => match a with
                             | DropSchema _ | DeleteRow _ => False
                             | _ => True
                             end) l.

(** "Event Bus publication never raises back to the lifecycle manager":
    once the namespace is created, [save] succeeds and cleans nothing up,
    whatever the receivers do. *)
Definition publication_isolated (E : env) (self : tenant_obj) (w : world) : Prop :=
  is_ok (create_schema E self true w).1 = true ->
  exists w',
    save E self w = (Ok (set_pk self (key_after self w)), w') /\
    (schema_name self ∈ catalog w') /\
    rows w' !! key_after self w = Some (Row (schema_name self)) /\
    no_cleanup w w'.



(** The body leaves the [previous_schema] of the instance at [l] as it
    found it; a body that enters the same instance again does not. *)
Definition keeps_previous_schema {A} (l : nat) (body : M session A) : Prop :=
  forall s o, heap s !! l = Some o ->
    exists o', heap (body s).2 !! l = Some o' /\
               previous_schema o' = previous_schema o.

(** *** Tenants and environments to run the methods on *)

Definition acme : tenant_obj :=
  {| pk := None; schema_name := "acme"; auto_create_schema := true;
     auto_drop_schema := false; previous_schema := None |}.

(** A stored tenant whose namespace is missing. *)
Definition acme_stored : tenant_obj := set_pk acme 1.

(** A tenant type without automatic creation, and a name that the naming
    rule refuses. *)
Definition pg_acme : tenant_obj :=
  {| pk := None; schema_name := "pg_acme"; auto_create_schema := false;
     auto_drop_schema := false; previous_schema := None |}.

Definition empty_world : world := World ∅ 1 ∅ [].

Definition acme_row_only : world := World {[ 1 := Row "acme" ]} 2 ∅ [].

Definition on_signal (sig : signal) (e : exn) : signal -> list receiver :=
  fun sig' => if decide (sig' = sig) then [fun _ => Some e] else [].

(** Nothing connected, nothing fails. *)
Definition calm : env := Env (fun _ => []) (fun _ => None).

(** The creation fails and leaves the namespace half-made. *)
Definition ddl_down : env :=
  Env (fun _ => []) (fun _ => Some (DatabaseError 1, true)).

(** The same, with a pre-drop receiver that raises. *)
Definition ddl_down_loud : env :=
  Env (on_signal schema_pre_drop (ReceiverError 2))
      (fun _ => Some (DatabaseError 1, true)).

(** A post-sync receiver that raises. *)
Definition post_sync_loud : env :=
  Env (on_signal schema_post_sync (ReceiverError 7)) (fun _ => None).


End TenantMixin.

(** ** Invariants of the domain table *)

Module DomainInvariants.
Import DomainMixin.

(** The unique index on [domain], as a property of the table. *)
Definition domains_unique (m : gmap nat domain_row) : Prop :=
  forall j1 j2 r1 r2,
    m !! j1 = Some r1 -> m !! j2 = Some r2 ->
    row_domain r1 = row_domain r2 -> j1 = j2.

End DomainInvariants.
(** ** TenantMixin.get_primary_domain *)

Module TenantDomains.
Import DomainMixin.

(** What [QuerySet.get] raises. *)
Inductive get_exn : Type := DoesNotExist | MultipleObjectsReturned.

(** [QuerySet.get] on a result set: its one row. *)
Definition qs_get (found : gmap nat domain_row) : get_exn + nat * domain_row :=
  match map_to_list found with
  | [] => inl DoesNotExist
  | [kr] => inr kr
  | _ :: _ :: _ => inl MultipleObjectsReturned
  end.

(** [TenantMixin.get_primary_domain], for the tenant of key [t]:
    [self.domains] are the rows whose foreign key is [t].  Only
    [DoesNotExist] is caught.  [get_domain_model()] is in [utils.py],
    which is not among the sources; it is taken to be the model of these
    rows, so that its [DoesNotExist] is the one that [get] raises. *)
Definition get_primary_domain (t : nat) (d : db) : get_exn + option (nat * domain_row) :=
  match qs_get (filter (fun kr => row_primary kr.2 = true) (domains_of t d)) with
  | inr kr => inr (Some kr)
  | inl DoesNotExist => inr None
  | inl MultipleObjectsReturned => inl MultipleObjectsReturned
  end.

End TenantDomains.
(** ** Invariants and footprints of the tenant methods *)

Module TenantInvariants.
Import TenantMixin.

(** The unique index on [schema_name], as a property of the table. *)
Definition names_unique (m : gmap nat tenant_row) : Prop :=
  forall j1 j2 r1 r2,
    m !! j1 = Some r1 -> m !! j2 = Some r2 ->
    row_schema_name r1 = row_schema_name r2 -> j1 = j2.

(** From [w] to [w'] nothing happened but, at most, the deletion of the
    row [k], changes to the namespace [name], and new entries at the end
    of the log. *)
Definition touches_only (name : string) (k : nat) (w w' : world) : Prop :=
  (rows w' = rows w \/ rows w' = base.delete k (rows w)) /\
  (forall n, n ≠ name -> n ∈ catalog w' <-> n ∈ catalog w) /\
  (exists l, log w' = log w ++ l) /\
  seq w' = seq w.

Definition touching {A} (name : string) (k : nat) (m : M world A) : Prop :=
  forall w, touches_only name k w (m w).2.

Definition is_row_write (a : action) : bool :=
  match a with
  | InsertRow _ _ | UpdateRow _ _ => true
  | _ => false
  end.

End TenantInvariants.
(** ** dpgs_sandbox.settings.full *)

Module Settings.

(** The values of the settings dictionaries: a string, or a list of
    strings. *)
Inductive value : Type :=
  | Str (s : string)
  | Lst (l : list string).

(** A [dict] literal, in the order it is written. *)
Definition dict (V : Type) : Type := list (string * V).

(** A subscript returns the value or raises [KeyError]. *)
Inductive lookup (A : Type) : Type :=
  | Found (a : A)
  | KeyError (key : string).
Arguments Found {A} a.
Arguments KeyError {A} key.

Fixpoint getitem {V} (d : dict V) (key : string) : lookup V :=
  match d with
  | [] => KeyError key
  | (k, v) :: d' => if decide (k = key) then Found v else getitem d' key
  end.

(** [for schema in TENANTS] runs over the keys. *)
Definition keys {V} (d : dict V) : list string := d.*1.

(** [for app in v]: the elements of a list, the characters of a string. *)
Definition iterate (v : value) : list string :=
  match v with
  | Lst l => l
  | Str s => (fun c => String c EmptyString) <$> list_ascii_of_string s
  end.

Definition TENANTS : dict (dict value) :=
  [ ("public",
      [ ("APPS", Lst ["shared_public"; "django.contrib.auth";
                      "django.contrib.contenttypes"; "django.contrib.staticfiles"]) ]);
    ("www",
      [ ("APPS", Lst ["shared_common"; "app_main"; "django.contrib.sessions"]);
        ("URLCONF", Str "app_main.urls");
        ("WS_URLCONF", Str "app_main.ws_urls");
        ("DOMAINS", Lst ["localhost"]);
        ("FALLBACK_DOMAINS", Lst ["everyone.localhost"]) ]);
    ("blog",
      [ ("APPS", Lst ["shared_common"; "app_blog"; "django.contrib.sessions"]);
        ("URLCONF", Str "app_blog.urls");
        ("DOMAINS", Lst ["blog.localhost"]) ]);
    ("default",
      [ ("TENANT_MODEL", Str "shared_public.Tenant");
        ("DOMAIN_MODEL", Str "shared_public.Domain");
        ("APPS", Lst ["shared_common"; "app_tenants"; "django.contrib.sessions"]);
        ("URLCONF", Str "app_tenants.urls");
        ("WS_URLCONF", Str "app_tenants.ws_urls");
        ("CLONE_REFERENCE", Str "sample") ]) ].

(** [[app for app in TENANTS[schema]["APPS"] if app not in INSTALLED_APPS]]:
    the list is built in full, against [INSTALLED_APPS] as it stands,
    before it is appended. *)
Definition new_apps (T : dict (dict value)) (schema : string) (installed : list string)
  : lookup (list string) :=
  match getitem T schema with
  | KeyError k => KeyError k
  | Found conf =>
      match getitem conf "APPS" with
      | KeyError k => KeyError k
      | Found v => Found (filter (fun app => app ∉ installed) (iterate v))
      end
  end.

(** The loop [for schema in TENANTS: INSTALLED_APPS += ...]. *)
Fixpoint install (T : dict (dict value)) (schemas : list string) (installed : list string)
  : lookup (list string) :=
  match schemas with
  | [] => Found installed
  | schema :: rest =>
      match new_apps T schema installed with
      | KeyError k => KeyError k
      | Found l => install T rest (installed ++ l)
      end
  end.

Definition installed_apps (T : dict (dict value)) : lookup (list string) :=
  install T (keys T) ["django_pgschemas"].

Definition INSTALLED_APPS : lookup (list string) := installed_apps TENANTS.

(** [ROOT_URLCONF = TENANTS["default"]["URLCONF"]] *)
Definition ROOT_URLCONF : lookup value :=
  match getitem TENANTS "default" with
  | KeyError k => KeyError k
  | Found conf => getitem conf "URLCONF"
  end.

(** The apps that a schema of [T] lists. *)
Definition lists (T : dict (dict value)) (schema app : string) : Prop :=
  exists conf v, getitem T schema = Found conf /\ getitem conf "APPS" = Found v /\
                 app ∈ iterate v.

End Settings.

(** * Properties *)

(** ** Equations of the monad *)

Section Equations.
Context {S A B : Type}.

Lemma bind_ok (m : M S A) (k : A -> M S B) s a s' :
  m s = (Ok a, s') -> bind m k s = k a s'.
Proof. unfold bind. by intros ->. Qed.

Lemma bind_raise (m : M S A) (k : A -> M S B) s e s' :
  m s = (Raise e, s') -> bind m k s = (Raise e, s').
Proof. unfold bind. by intros ->. Qed.

Lemma try_ok (body : M S A) handler s a s' :
  body s = (Ok a, s') -> try_except_reraise body handler s = (Ok a, s').
Proof. unfold try_except_reraise. by intros ->. Qed.

Lemma try_reraise (body : M S A) handler s e s' u s'' :
  body s = (Raise e, s') -> handler s' = (Ok u, s'') ->
  try_except_reraise body handler s = (Raise e, s'').
Proof. unfold try_except_reraise. by intros -> ->. Qed.


End Equations.

(** ** DomainMixin.save *)

Module DomainMixinFacts.
Import DomainMixin.

Lemma selects_spec qs (m : gmap nat domain_row) :
  selects qs m = true <-> exists k r, m !! k = Some r /\ qs k r = true.
Proof.
  unfold selects. rewrite bool_decide_eq_true. apply map_Exists_lookup.
Qed.

Lemma other_primaries_true self j r :
  other_primaries self j r = true <->
  row_tenant r = tenant self /\ row_primary r = true /\ pk self ≠ Some j.
Proof.
  unfold other_primaries. rewrite !andb_true_iff, bool_decide_eq_true.
  destruct (pk self) as [k0|].
  - rewrite negb_true_iff, bool_decide_eq_false.
    split; [intros [[-> ->] Hj]|intros (-> & -> & Hj)]; repeat split; congruence.
  - split; [intros [[-> ->] _]|intros (-> & -> & _)]; repeat split; congruence.
Qed.

(** The queryset of the method selects the set that the specification
    describes. *)
Lemma selects_other_primaries self d :
  selects (other_primaries self) (rows d) =
  negb (bool_decide (other_primary_set self d = ∅)).
Proof.
  apply eq_true_iff_eq. rewrite selects_spec, negb_true_iff, bool_decide_eq_false.
  unfold other_primary_set. rewrite map_empty_filter. split.
  - intros (k & r & Hk & Hq) Hall. apply other_primaries_true in Hq.
    apply (Hall k r Hk). cbn. tauto.
  - intros Hn. apply map_not_Forall in Hn as (k & r & Hk & Hq); [|apply _].
    exists k, r. split; [done|]. apply other_primaries_true.
    by apply dec_stable in Hq.
Qed.

Lemma effective_agree self d : effective self d = effective_is_primary self d.
Proof.
  unfold effective, effective_is_primary.
  by rewrite selects_other_primaries, negb_involutive.
Qed.

(** *** The two ways out of [save] *)

Lemma save_raise flt self d e d' :
  save flt self d = (Raise e, d') -> rows d' = rows d.
Proof.
  unfold save, atomic.
  destruct (bind _ _ d) as [[a|e0] d1]; intros H; inversion H; done.
Qed.

Lemma save_ok flt self d self' d' :
  save flt self d = (Ok self', d') ->
  exists k,
    key_of self k d /\
    self' = set_pk (set_is_primary self (effective self d)) k /\
    rows d' = saved_rows self k d.
Proof.
  unfold save, atomic, qs_exists, qs_update_demote, model_save, fault_at, saved_rows,
    key_of, effective, nextval, put_row, bind, get, modify, ret, raise.
  destruct self as [p dm t ip]; destruct d as [m sq]; cbn.
  destruct (flt AtExists); [cbn; intros H; inversion H|].
  cbn. destruct (ip || negb (selects _ m)) eqn:Heff; cbn.
  - destruct (flt AtUpdate); [cbn; intros H; inversion H|]. cbn.
    destruct (flt AtSave); [cbn; intros H; inversion H|]. cbn.
    destruct p as [k|]; cbn.
    + destruct (domain_taken _ _ _); intros H; inversion H; subst.
      exists k. split; [by left|]. done.
    + destruct (domain_taken _ _ _ || _) eqn:Hchk; intros H; inversion H; subst.
      exists sq. apply orb_false_iff in Hchk as [_ Hk].
      apply bool_decide_eq_false in Hk.
      rewrite map_lookup_imap in Hk.
      split; [right; split; [done|]|done].
      destruct (m !! sq) eqn:E; [|done]. exfalso. apply Hk. cbn. eauto.
  - destruct (flt AtSave); [cbn; intros H; inversion H|]. cbn.
    destruct p as [k|]; cbn.
    + destruct (domain_taken _ _ _); intros H; inversion H; subst.
      exists k. split; [by left|]. done.
    + destruct (domain_taken _ _ _ || _) eqn:Hchk; intros H; inversion H; subst.
      exists sq. apply orb_false_iff in Hchk as [_ Hk].
      apply bool_decide_eq_false in Hk.
      split; [right; split; [done|]|done].
      destruct (m !! sq) eqn:E; [|done]. exfalso. apply Hk. eauto.
Qed.

Lemma domain_taken_false s k (m : gmap nat domain_row) :
  domain_taken s k m = false <->
  forall j r, m !! j = Some r -> row_domain r = s -> j = k.
Proof.
  unfold domain_taken. rewrite bool_decide_eq_false. split.
  - intros Hn j r Hj Hs. destruct (decide (j = k)); [done|].
    exfalso. apply Hn. exists j, r. done.
  - intros H (j & r & Hj & Hs & Hne). by apply Hne, (H j r).
Qed.

Lemma domain_taken_demoted s k qs (m : gmap nat domain_row) :
  domain_taken s k (map_imap (fun j r => Some (demote_in qs j r)) m) = domain_taken s k m.
Proof.
  apply eq_true_iff_eq. unfold domain_taken. rewrite !bool_decide_eq_true.
  split; intros (j & r & Hj & Hs & Hne).
  - rewrite map_lookup_imap in Hj. destruct (m !! j) as [r0|] eqn:E; [|done].
    cbn in Hj. injection Hj as <-. exists j, r0. split; [done|]. split; [|done].
    unfold demote_in in Hs. by destruct (qs j r0).
  - exists j, (demote_in qs j r). rewrite map_lookup_imap, Hj. split; [done|].
    split; [|done]. unfold demote_in. by destruct (qs j r).
Qed.

(** [save] does return when nothing fails underneath: no injected error,
    a domain that no other row holds and, for a new instance, a fresh
    key. *)
Lemma save_succeeds flt self d k :
  (forall st, flt st = None) ->
  (pk self = Some k \/ (pk self = None /\ k = seq d /\ rows d !! k = None)) ->
  (forall j r, rows d !! j = Some r -> row_domain r = domain self -> j = k) ->
  exists sq,
    save flt self d =
    (Ok (set_pk (set_is_primary self (effective self d)) k),
     Db (saved_rows self k d) sq).
Proof.
  intros Hflt Hkey Hdom. apply domain_taken_false in Hdom.
  unfold save, atomic, qs_exists, qs_update_demote, model_save, fault_at, saved_rows,
    effective, nextval, put_row, bind, get, modify, ret, raise.
  rewrite !Hflt.
  destruct self as [p dm t ip]; destruct d as [m sq]; cbn in *.
  destruct (ip || negb (selects _ m)) eqn:Heff; cbn; rewrite ?Hflt; cbn.
  - destruct Hkey as [->|(-> & -> & Hk)]; cbn.
    + rewrite domain_taken_demoted, Hdom. by eexists.
    + rewrite domain_taken_demoted, Hdom, map_lookup_imap, Hk. cbn. by eexists.
  - destruct Hkey as [->|(-> & -> & Hk)]; cbn.
    + rewrite Hdom. by eexists.
    + rewrite Hdom, Hk. cbn. by eexists.
Qed.

(** *** The table after a successful [save] *)

Lemma saved_rows_self self k d :
  saved_rows self k d !! k = Some (row_of (set_is_primary self (effective self d))).
Proof. unfold saved_rows. apply lookup_insert_eq. Qed.

Lemma saved_rows_other self k d j :
  j ≠ k ->
  saved_rows self k d !! j =
  (if effective self d then demote_in (other_primaries self) j else id) <$> rows d !! j.
Proof.
  intros Hj. unfold saved_rows. rewrite lookup_insert_ne by done.
  destruct (effective self d).
  - rewrite map_lookup_imap. by destruct (rows d !! j).
  - by destruct (rows d !! j).
Qed.

Section SavedRows.
Context (self : domain_obj) (k : nat) (d : db).
Hypothesis Hkey : key_of self k d.

(** Another row is the row that was there, demoted or not. *)
Lemma saved_other_origin j r' :
  j ≠ k -> saved_rows self k d !! j = Some r' ->
  exists r, rows d !! j = Some r /\ row_tenant r' = row_tenant r /\
            (row_primary r' = true -> r' = r).
Proof.
  intros Hj. rewrite saved_rows_other by done.
  destruct (rows d !! j) as [r|]; [|done]. intros [= <-]. exists r.
  split; [done|]. destruct (effective self d); [|done].
  unfold demote_in. destruct (other_primaries self j r); [|done].
  split; [done|]. cbn. done.
Qed.

(** When the saved domain is primary, no other row of its tenant is. *)
Lemma saved_other_demoted j r' :
  effective self d = true -> j ≠ k -> saved_rows self k d !! j = Some r' ->
  row_tenant r' = tenant self -> row_primary r' = false.
Proof.
  intros He Hj. rewrite saved_rows_other by done. rewrite He.
  destruct (rows d !! j) as [r|]; [|done]. intros [= <-] Ht.
  unfold demote_in in *.
  destruct (other_primaries self j r) eqn:Hq; [done|].
  destruct (row_primary r) eqn:Hp; [|done]. exfalso.
  assert (other_primaries self j r = true) as Hq'; [|congruence].
  apply other_primaries_true. repeat split; [done..|].
  destruct Hkey as [Hk|[Hk _]]; rewrite Hk; congruence.
Qed.

(** A row of another tenant, or any row when nothing is demoted, stays. *)
Lemma saved_other_kept j r :
  j ≠ k -> rows d !! j = Some r ->
  row_tenant r ≠ tenant self \/ effective self d = false ->
  saved_rows self k d !! j = Some r.
Proof.
  intros Hj Hr Hc. rewrite saved_rows_other, Hr by done. cbn.
  destruct (effective self d); [|done]. destruct Hc as [Hc|Hc]; [|done].
  unfold demote_in. destruct (other_primaries self j r) eqn:Hq; [|done].
  apply other_primaries_true in Hq. tauto.
Qed.

Lemma saved_at_most_one t :
  at_most_one t (rows d) -> at_most_one t (saved_rows self k d).
Proof.
  intros IH j1 j2 r1 r2 H1 H2 [Ht1 Hp1] [Ht2 Hp2].
  destruct (decide (j1 = k)) as [->|N1], (decide (j2 = k)) as [->|N2]; [done|..].
  - rewrite saved_rows_self in H1. injection H1 as <-. cbn in *.
    rewrite (saved_other_demoted j2 r2) in Hp2; [done..|congruence].
  - rewrite saved_rows_self in H2. injection H2 as <-. cbn in *.
    rewrite (saved_other_demoted j1 r1) in Hp1; [done..|congruence].
  - apply saved_other_origin in H1 as (o1 & Ho1 & _ & E1); [|done].
    apply saved_other_origin in H2 as (o2 & Ho2 & _ & E2); [|done].
    specialize (E1 Hp1). specialize (E2 Hp2). subst.
    by apply (IH j1 j2 o1 o2).
Qed.

Lemma saved_has_primary t :
  (tenant self ≠ t -> forall r, rows d !! k = Some r -> row_tenant r ≠ t) ->
  (domains_of t d ≠ ∅ -> has_primary t (rows d)) ->
  domains_of t (Db (saved_rows self k d) (seq d)) ≠ ∅ ->
  has_primary t (saved_rows self k d).
Proof.
  intros Hstay IH Hne.
  destruct (decide (tenant self = t)) as [Ht|Ht].
  - destruct (effective self d) eqn:He.
    + exists k, (row_of (set_is_primary self (effective self d))).
      rewrite saved_rows_self. split; [done|]. by rewrite He.
    + apply orb_false_iff in He as He'. destruct He' as [_ Hsel].
      apply negb_false_iff, selects_spec in Hsel as (j & r & Hj & Hq).
      apply other_primaries_true in Hq as Hq'. destruct Hq' as (Hrt & Hrp & Hne').
      assert (j ≠ k) as Hjk.
      { destruct Hkey as [Hk|[_ Hk]]; congruence. }
      exists j, r. split; [|split; congruence].
      apply saved_other_kept; auto.
  - apply map_choose in Hne as (j & r' & Hj).
    apply map_lookup_filter_Some in Hj as [Hj Htj]. cbn in Hj, Htj.
    assert (j ≠ k) as Hjk.
    { intros ->. rewrite saved_rows_self in Hj. injection Hj as <-. cbn in Htj. done. }
    apply saved_other_origin in Hj as (r & Hr & Hrt & _); [|done].
    destruct IH as (j0 & r0 & Hj0 & [Ht0 Hp0]).
    { intros Hemp. apply (map_filter_empty_not_lookup _ _ j r) in Hemp; [done..|].
      cbn. congruence. }
    assert (j0 ≠ k) as Hj0k.
    { intros ->. by apply (Hstay Ht r0). }
    exists j0, r0. split; [|done].
    apply saved_other_kept; [done..|]. left. congruence.
Qed.

End SavedRows.

(** *** From the invariants to the counts *)

Lemma primaries_lookup t d j r :
  primaries_of t d !! j = Some r <-> rows d !! j = Some r /\ primary_of t r.
Proof. unfold primaries_of. by rewrite map_lookup_filter_Some. Qed.

Lemma at_most_one_size t d :
  at_most_one t (rows d) -> size (primaries_of t d) ≤ 1.
Proof.
  intros Hamo.
  destruct (map_choose_or_empty (primaries_of t d)) as [(i & x & Hi)|Hemp].
  - assert (primaries_of t d = {[ i := x ]}) as ->; [|by rewrite map_size_singleton].
    apply map_eq. intros j. destruct (decide (j = i)) as [->|Hj].
    + by rewrite lookup_singleton_eq.
    + rewrite lookup_singleton_ne by done.
      destruct (primaries_of t d !! j) as [y|] eqn:Hy; [|done].
      apply primaries_lookup in Hi as [Hi Pi], Hy as [Hy Py].
      by specialize (Hamo _ _ _ _ Hy Hi Py Pi).
  - rewrite Hemp, map_size_empty. lia.
Qed.

Lemma has_primary_size t d :
  has_primary t (rows d) -> size (primaries_of t d) ≠ 0.
Proof.
  intros (j & r & Hj & Hp). apply map_size_ne_0_lookup.
  exists j. rewrite (proj2 (primaries_lookup t d j r)); eauto.
Qed.

Lemma no_domains_at_most_one t d :
  domains_of t d = ∅ -> at_most_one t (rows d).
Proof.
  intros Hemp j1 j2 r1 r2 H1 _ [Ht _] _. exfalso.
  by apply (map_filter_empty_not_lookup _ _ j1 r1) in Hemp.
Qed.

(** *** Along a history *)

Lemma step_cases d rq :
  rows (step d rq) = rows d \/
  exists k, key_of rq.2 k d /\ rows (step d rq) = saved_rows rq.2 k d.
Proof.
  unfold step. destruct (save rq.1 rq.2 d) as [[self'|e] d'] eqn:Hs; cbn.
  - right. apply save_ok in Hs as (k & Hk & _ & Hr). by exists k.
  - left. by apply save_raise in Hs.
Qed.

Lemma step_at_most_one t d rq :
  at_most_one t (rows d) -> at_most_one t (rows (step d rq)).
Proof.
  intros IH. destruct (step_cases d rq) as [->|(k & Hk & ->)]; [done|].
  by apply saved_at_most_one.
Qed.

Lemma run_at_most_one t rqs d :
  at_most_one t (rows d) -> at_most_one t (rows (run rqs d)).
Proof.
  revert d. induction rqs as [|rq rqs IH]; intros d Hd; cbn; [done|].
  apply IH. by apply step_at_most_one.
Qed.

Lemma step_has_primary t d rq :
  takes_away t d rq = false ->
  (domains_of t d ≠ ∅ -> has_primary t (rows d)) ->
  domains_of t (step d rq) ≠ ∅ -> has_primary t (rows (step d rq)).
Proof.
  intros Hta IH. unfold domains_of.
  destruct (step_cases d rq) as [->|(k & Hk & ->)]; [done|].
  apply saved_has_primary; [done| |done].
  intros Hne r Hr Hrt. unfold takes_away in Hta.
  destruct Hk as [Hk|[_ Hk]]; [|congruence].
  rewrite Hk, Hr in Hta. apply andb_false_iff in Hta as [Hta|Hta].
  - by apply bool_decide_eq_false in Hta.
  - by apply negb_false_iff, bool_decide_eq_true in Hta.
Qed.

Lemma run_has_primary t rqs d :
  none_taken_away t rqs d = true ->
  (domains_of t d ≠ ∅ -> has_primary t (rows d)) ->
  domains_of t (run rqs d) ≠ ∅ -> has_primary t (rows (run rqs d)).
Proof.
  revert d. induction rqs as [|rq rqs IH]; intros d Hn Hd; cbn; [done|].
  cbn in Hn. apply andb_true_iff in Hn as [Hn1 Hn2].
  apply IH; [done|]. apply step_has_primary; [|done]. by apply negb_true_iff.
Qed.

(** *** Primary-domain uniqueness *)

(** C1, as stated, fails: after two domains are saved for tenant 7 (the
    second one not primary) and the primary one is saved again under
    tenant 8, tenant 7 has a domain and no primary domain. *)
Lemma primary_unique_fails_after_handover :
  domains_of 7 empty_db = ∅ /\ ~ primary_unique 7 (run handed_over empty_db).
Proof.
  split; [done|]. intros [_ H].
  assert (size (primaries_of 7 (run handed_over empty_db)) = 0) as H0 by (by vm_compute).
  rewrite H0 in H. discriminate H. by vm_compute.
Qed.

(** C1 (amended).  Starting from a table without domains of tenant [t],
    after any sequence of [save] calls (failed ones included) at most one
    domain of [t] is primary; and when none of these calls hands a stored
    domain of [t] over to another tenant, [t] has exactly one primary
    domain as soon as it has a domain. *)
Theorem primary_unique_after_saves t rqs d0 :
  domains_of t d0 = ∅ ->
  size (primaries_of t (run rqs d0)) ≤ 1 /\
  (none_taken_away t rqs d0 = true ->
   domains_of t (run rqs d0) ≠ ∅ ->
   size (primaries_of t (run rqs d0)) = 1).
Proof.
  intros H0.
  assert (size (primaries_of t (run rqs d0)) ≤ 1) as Hle.
  { apply at_most_one_size, run_at_most_one. by apply no_domains_at_most_one. }
  split; [done|]. intros Hn Hne.
  assert (size (primaries_of t (run rqs d0)) ≠ 0); [|lia].
  apply has_primary_size, run_has_primary; done.
Qed.

Lemma primary_unique_after_saves_witness :
  domains_of 7 empty_db = ∅ /\
  size (primaries_of 7 (run handed_over empty_db)) ≤ 1 /\
  size (primaries_of 7 two_domains) = 1.
Proof.
  split; [by vm_compute|]. split.
  - apply (primary_unique_after_saves 7 handed_over empty_db). by vm_compute.
  - apply (primary_unique_after_saves 7 (take 2 handed_over) empty_db); by vm_compute.
Defined.

(** The scenario of the specification: [a] is saved first and is
    primary; [b] is saved with [is_primary=False] and is not; [b] is
    saved again with [is_primary=True], and then [a] is demoted. *)
Example first_then_second_then_promoted :
  rows two_domains = {[ 1 := Row "a.example.com" 7 true;
                        2 := Row "b.example.com" 7 false ]} /\
  rows (save no_faults (Domain (Some 2) "b.example.com" 7 true) two_domains).2 =
    {[ 1 := Row "a.example.com" 7 false; 2 := Row "b.example.com" 7 true ]}.
Proof. split; by vm_compute. Qed.

(** *** The effective value *)



(** *** Demotion within the transaction *)

(** C5.  Saving [D] as primary while [E], another domain of the same
    tenant, is primary: when [save] returns, the row of [D] is primary
    and the row of [E] is not; when it raises, at whatever step, the
    table is as it was. *)
Theorem save_demotes_atomically flt D d kE E :
  rows d !! kE = Some E -> row_tenant E = tenant D -> row_primary E = true ->
  pk D ≠ Some kE -> is_primary D = true ->
  match save flt D d with
  | (Ok D', d') =>
      exists kD, pk D' = Some kD /\ kD ≠ kE /\
        rows d' !! kD = Some (Row (domain D) (tenant D) true) /\
        rows d' !! kE = Some (demote E)
  | (Raise e, d') => rows d' = rows d
  end.
Proof.
  intros HE Ht Hp Hne HD.
  destruct (save flt D d) as [[D'|e] d'] eqn:Hs; [|by apply save_raise in Hs].
  apply save_ok in Hs as (k & Hk & -> & Hr). exists k. cbn.
  assert (effective D d = true) as He by (unfold effective; by rewrite HD).
  assert (k ≠ kE) as Hkk by (destruct Hk as [Hk|[_ Hk]]; congruence).
  repeat split; [done|..]; rewrite Hr.
  - rewrite saved_rows_self, He. done.
  - rewrite saved_rows_other, HE, He by done. cbn. f_equal.
    unfold demote_in.
    rewrite (proj2 (other_primaries_true D kE E)); [done|]. done.
Qed.

Lemma save_demotes_atomically_witness :
  rows two_domains !! 1 = Some (Row "a.example.com" 7 true) /\
  (exists kD, kD ≠ 1 /\
     rows (save no_faults (Domain (Some 2) "b.example.com" 7 true) two_domains).2 !! kD
       = Some (Row "b.example.com" 7 true) /\
     rows (save no_faults (Domain (Some 2) "b.example.com" 7 true) two_domains).2 !! 1
       = Some (Row "a.example.com" 7 false)) /\
  rows (save save_fails (Domain (Some 2) "b.example.com" 7 true) two_domains).2
    = rows two_domains.
Proof.
  split; [by vm_compute|]. split.
  - pose proof (save_demotes_atomically no_faults
                  (Domain (Some 2) "b.example.com" 7 true) two_domains 1
                  (Row "a.example.com" 7 true)
                  eq_refl eq_refl eq_refl ltac:(discriminate) eq_refl) as H.
    destruct (save no_faults _ two_domains) as [[D'|e] d'] eqn:Hs.
    + destruct H as (kD & _ & Hne & HD & HE). exists kD. cbn. auto.
    + vm_compute in Hs. discriminate Hs.
  - pose proof (save_demotes_atomically save_fails
                  (Domain (Some 2) "b.example.com" 7 true) two_domains 1
                  (Row "a.example.com" 7 true)
                  eq_refl eq_refl eq_refl ltac:(discriminate) eq_refl) as H.
    destruct (save save_fails _ two_domains) as [[D'|e] d'] eqn:Hs.
    + vm_compute in Hs. discriminate Hs.
    + exact H.
Defined.

(** *** The default of [is_primary] *)

(** C9.  An instance built without [is_primary] asks for primary status;
    saving it for a tenant that has a primary domain [E] succeeds (no
    database error, the domain and the next key are free), makes the new
    domain primary and demotes [E]. *)
Theorem default_save_takes_primary flt d name t kE E :
  rows d !! kE = Some E -> row_tenant E = t -> row_primary E = true ->
  (forall st, flt st = None) ->
  domain_taken name (seq d) (rows d) = false ->
  rows d !! seq d = None ->
  is_primary (new_domain name t) = true /\
  exists d',
    save flt (new_domain name t) d = (Ok (Domain (Some (seq d)) name t true), d') /\
    rows d' !! seq d = Some (Row name t true) /\
    rows d' !! kE = Some (demote E).
Proof.
  intros HE Ht Hp Hflt Hfree Hseq. split; [done|].
  destruct (save_succeeds flt (new_domain name t) d (seq d)) as (sq & Hs);
    [done|by right|by apply domain_taken_false|].
  eexists. split; [exact Hs|]. cbn. split.
  - by rewrite saved_rows_self.
  - assert (kE ≠ seq d) by congruence.
    rewrite saved_rows_other, HE by done. cbn. f_equal. unfold demote_in.
    rewrite (proj2 (other_primaries_true (new_domain name t) kE E)); done.
Qed.

Lemma default_save_takes_primary_witness :
  rows (run (take 1 handed_over) empty_db) !! 1 = Some (Row "a.example.com" 7 true) /\
  exists d',
    save no_faults (new_domain "b.example.com" 7) (run (take 1 handed_over) empty_db)
      = (Ok (Domain (Some 2) "b.example.com" 7 true), d') /\
    rows d' !! 2 = Some (Row "b.example.com" 7 true) /\
    rows d' !! 1 = Some (Row "a.example.com" 7 false).
Proof.
  split; [by vm_compute|].
  exact (proj2 (default_save_takes_primary no_faults
                  (run (take 1 handed_over) empty_db) "b.example.com" 7 1
                  (Row "a.example.com" 7 true)
                  eq_refl eq_refl eq_refl (fun _ => eq_refl) eq_refl eq_refl)).
Defined.

End DomainMixinFacts.

(** ** TenantMixin *)

Module TenantMixinFacts.
Import TenantMixin.

(** *** Closed forms of the pieces of [save] *)

Lemma call_receivers_eq rs t w :
  call_receivers rs t w =
  (match first_error rs t with Some e => Raise e | None => Ok tt end, w).
Proof.
  induction rs as [|r rs IH]; cbn; [done|]. by destruct (r t).
Qed.

Lemma send_eq E sig t w :
  send E sig t w =
  (match first_error (receivers E sig) t with Some e => Raise e | None => Ok tt end,
   World (rows w) (seq w) (catalog w) (log w ++ [Send sig (pk t) (schema_name t)])).
Proof.
  unfold send, emit, bind, modify. by rewrite call_receivers_eq.
Qed.

Lemma row_save_ok_new self w :
  pk self = None -> row_save_ok self w = true ->
  name_taken (schema_name self) (seq w) (rows w) = false /\ rows w !! seq w = None.
Proof.
  unfold row_save_ok, key_after. intros ->.
  rewrite andb_true_iff, negb_true_iff, bool_decide_eq_true. tauto.
Qed.

Lemma row_save_ok_stored self k w :
  pk self = Some k -> row_save_ok self w = true ->
  name_taken (schema_name self) k (rows w) = false.
Proof.
  unfold row_save_ok, key_after. intros ->.
  rewrite andb_true_iff, negb_true_iff. tauto.
Qed.

Lemma model_save_new self w :
  pk self = None -> row_save_ok self w = true ->
  model_save self w =
  (Ok (set_pk self (seq w)),
   World (<[ seq w := Row (schema_name self) ]> (rows w)) (S (seq w)) (catalog w)
         (log w ++ [InsertRow (seq w) (schema_name self)])).
Proof.
  intros Hpk Hrow. destruct (row_save_ok_new self w Hpk Hrow) as [Hfree Hk].
  unfold model_save, nextval, emit, set_rows, bind, get, modify, ret, raise.
  rewrite Hpk. cbn. rewrite Hfree, Hk. done.
Qed.

Lemma model_save_stored self w k :
  pk self = Some k -> row_save_ok self w = true ->
  model_save self w =
  (Ok self,
   World (<[ k := Row (schema_name self) ]> (rows w)) (seq w) (catalog w)
         (log w ++ [if bool_decide (is_Some (rows w !! k))
                    then UpdateRow k (schema_name self)
                    else InsertRow k (schema_name self)])).
Proof.
  intros Hpk Hrow. pose proof (row_save_ok_stored self k w Hpk Hrow) as Hfree.
  unfold model_save, emit, set_rows, bind, get, modify, ret, raise.
  rewrite Hpk. cbn. rewrite Hfree. done.
Qed.

Lemma create_schema_eq E self w :
  create_schema E self true w =
  if bool_decide (schema_name self ∈ catalog w) then (Raise AlreadyExists, w)
  else match ddl_fault E (schema_name self) with
       | Some (e, partial) =>
           (Raise e,
            World (rows w) (seq w)
                  (if partial then {[ schema_name self ]} ∪ catalog w else catalog w)
                  (log w ++ [CreateSchema (schema_name self)]))
       | None =>
           (Ok true,
            World (rows w) (seq w) ({[ schema_name self ]} ∪ catalog w)
                  (log w ++ [CreateSchema (schema_name self)]))
       end.
Proof.
  unfold create_schema, utils_create_schema, emit, set_catalog, bind, get, modify, ret, raise.
  cbn. destruct (bool_decide _); [done|].
  destruct (ddl_fault E (schema_name self)) as [[e []]|]; destruct w; done.
Qed.

Lemma drop_schema_eq self w :
  drop_schema self w =
  (Ok tt, World (rows w) (seq w) (catalog w ∖ {[ schema_name self ]})
                (log w ++ [DropSchema (schema_name self)])).
Proof. done. Qed.

Lemma delete_forced_eq E self k w :
  pk self = Some k ->
  delete E self true w =
  match first_error (receivers E schema_pre_drop) self with
  | Some e =>
      (Raise e, World (rows w) (seq w) (catalog w)
                      (log w ++ [Send schema_pre_drop (Some k) (schema_name self)]))
  | None =>
      (Ok tt, World (base.delete k (rows w)) (seq w) (catalog w ∖ {[ schema_name self ]})
                    (log w ++ [Send schema_pre_drop (Some k) (schema_name self);
                               DropSchema (schema_name self); DeleteRow k]))
  end.
Proof.
  intros Hpk. unfold delete, serializable_fields. cbn.
  unfold bind at 1. unfold bind at 1. rewrite send_eq, Hpk.
  destruct (first_error _ _); [done|].
  rewrite drop_schema_eq. unfold model_delete. rewrite Hpk.
  unfold emit, set_rows, bind, modify. cbn. by rewrite <- !app_assoc.
Qed.

(** The outcome of a creation depends on the catalog and on the
    environment only. *)
Lemma creation_raises_inv E self w e :
  creation_raises E self w e ->
  (schema_name self ∈ catalog w /\ e = AlreadyExists) \/
  ((schema_name self ∉ catalog w) /\
   exists p, ddl_fault E (schema_name self) = Some (e, p)).
Proof.
  unfold creation_raises. rewrite create_schema_eq.
  case_bool_decide as Hin.
  - cbn. intros [= <-]. by left.
  - right. split; [done|].
    destruct (ddl_fault E (schema_name self)) as [[e' p]|]; cbn in *; [|done].
    injection H as ->. by exists p.
Qed.

Lemma creation_ok_inv E self w :
  is_ok (create_schema E self true w).1 = true ->
  (schema_name self ∉ catalog w) /\ ddl_fault E (schema_name self) = None.
Proof.
  rewrite create_schema_eq. case_bool_decide as Hin; [done|].
  by destruct (ddl_fault E (schema_name self)) as [[e' p]|].
Qed.

Lemma set_pk_same self k : pk self = Some k -> set_pk self k = self.
Proof. destruct self; cbn. by intros ->. Qed.

(** *** The three branches of [save], after the row is written *)

Lemma save_new_auto E self w :
  pk self = None -> auto_create_schema self = true -> row_save_ok self w = true ->
  save E self w =
  bind (try_except_reraise
          (bind (create_schema E (set_pk self (seq w)) true)
                (fun _ => send E schema_post_sync (set_pk self (seq w))))
          (delete E (set_pk self (seq w)) true))
       (fun _ => ret (set_pk self (seq w)))
       (World (<[ seq w := Row (schema_name self) ]> (rows w)) (S (seq w)) (catalog w)
              (log w ++ [InsertRow (seq w) (schema_name self)])).
Proof.
  intros Hpk Hauto Hrow.
  unfold save. rewrite (bind_ok _ _ _ _ _ (model_save_new self w Hpk Hrow)).
  rewrite Hpk. cbn. rewrite Hauto. done.
Qed.

Lemma save_new_manual E self w :
  pk self = None -> auto_create_schema self = false -> row_save_ok self w = true ->
  save E self w =
  bind (send E schema_needs_sync (set_pk self (seq w)))
       (fun _ => ret (set_pk self (seq w)))
       (World (<[ seq w := Row (schema_name self) ]> (rows w)) (S (seq w)) (catalog w)
              (log w ++ [InsertRow (seq w) (schema_name self)])).
Proof.
  intros Hpk Hauto Hrow.
  unfold save. rewrite (bind_ok _ _ _ _ _ (model_save_new self w Hpk Hrow)).
  rewrite Hpk. cbn. rewrite Hauto. done.
Qed.

Lemma save_stored_missing E self k w :
  pk self = Some k -> auto_create_schema self = true -> row_save_ok self w = true ->
  schema_name self ∉ catalog w ->
  save E self w =
  bind (try_except_reraise
          (bind (create_schema E self true)
                (fun _ => send E schema_post_sync self))
          (drop_schema self))
       (fun _ => ret self)
       (World (<[ k := Row (schema_name self) ]> (rows w)) (seq w) (catalog w)
              (log w ++ [if bool_decide (is_Some (rows w !! k))
                         then UpdateRow k (schema_name self)
                         else InsertRow k (schema_name self)])).
Proof.
  intros Hpk Hauto Hrow Hmiss.
  unfold save. rewrite (bind_ok _ _ _ _ _ (model_save_stored self w k Hpk Hrow)).
  rewrite Hpk. cbn. rewrite Hauto. cbn.
  unfold schema_exists. unfold bind at 1. unfold bind at 1. cbn.
  rewrite bool_decide_eq_false_2 by done. done.
Qed.

(** *** A failed creation of a new tenant *)






(** *** A failed creation for a stored tenant *)

(** C6.  Saving a stored tenant with automatic creation whose namespace
    is missing attempts the creation; when that raises [e], [save] drops
    the namespace and nothing else, and raises [e]: the row is still
    there and the namespace does not exist. *)
Theorem failed_sync_keeps_record E self k r0 w e :
  pk self = Some k -> rows w !! k = Some r0 ->
  auto_create_schema self = true -> row_save_ok self w = true ->
  schema_name self ∉ catalog w ->
  creation_raises E self w e ->
  exists w',
    save E self w = (Raise e, w') /\
    rows w' !! k = Some (Row (schema_name self)) /\
    (schema_name self ∉ catalog w') /\
    log w' = log w ++ [UpdateRow k (schema_name self);
                       CreateSchema (schema_name self);
                       DropSchema (schema_name self)].
Proof.
  intros Hpk Hrow Hauto Hsave Hmiss He.
  rewrite (save_stored_missing E self k) by done.
  apply creation_raises_inv in He as [[Hin _]|[_ [p Hp]]]; [done|].
  rewrite bool_decide_eq_true_2 by (by rewrite Hrow).
  eexists. split.
  - apply bind_raise. eapply try_reraise.
    + apply bind_raise. rewrite create_schema_eq. cbn.
      rewrite bool_decide_eq_false_2 by done. by rewrite Hp.
    + apply drop_schema_eq.
  - cbn. split; [by rewrite lookup_insert_eq|]. split.
    + apply not_elem_of_difference; right; by apply elem_of_singleton.
    + by rewrite <- !app_assoc.
Qed.

Lemma failed_sync_keeps_record_witness :
  (rows acme_row_only !! 1 = Some (Row "acme") /\
   creation_raises ddl_down acme_stored acme_row_only (DatabaseError 1)) /\
  exists w',
    save ddl_down acme_stored acme_row_only = (Raise (DatabaseError 1), w') /\
    rows w' !! 1 = Some (Row "acme") /\
    ("acme" ∉ catalog w') /\
    log w' = [UpdateRow 1 "acme"; CreateSchema "acme"; DropSchema "acme"].
Proof.
  split; [split; reflexivity|].
  exact (failed_sync_keeps_record ddl_down acme_stored 1 (Row "acme") acme_row_only
           (DatabaseError 1) eq_refl eq_refl eq_refl eq_refl
           (not_elem_of_empty "acme") eq_refl).
Defined.

(** *** Receivers that raise *)

(** C7, as stated, fails: the namespace of a new tenant is created, a
    post-sync receiver raises, and [save] raises that error after it has
    dropped the namespace and deleted the row. *)
Lemma publication_not_isolated :
  (auto_create_schema acme = true /\ row_save_ok acme empty_world = true /\
   is_ok (create_schema post_sync_loud acme true empty_world).1 = true) /\
  ~ publication_isolated post_sync_loud acme empty_world /\
  (save post_sync_loud acme empty_world).1 = Raise (ReceiverError 7) /\
  rows (save post_sync_loud acme empty_world).2 !! 1 = None /\
  log (save post_sync_loud acme empty_world).2 =
    [InsertRow 1 "acme"; CreateSchema "acme"; Send schema_post_sync (Some 1) "acme";
     Send schema_pre_drop (Some 1) "acme"; DropSchema "acme"; DeleteRow 1].
Proof.
  split; [done|]. split; [|by vm_compute].
  intros H. destruct (H eq_refl) as (w' & Hs & _).
  vm_compute in Hs. discriminate Hs.
Qed.

Lemma post_sync_propagates E self w :
  auto_create_schema self = true -> row_save_ok self w = true ->
  is_ok (create_schema E self true w).1 = true ->
  match first_error (receivers E schema_post_sync) (set_pk self (key_after self w)) with
  | None => publication_isolated E self w
  | Some e =>
      (pk self = None -> quiet E schema_pre_drop (set_pk self (key_after self w)) ->
       exists w', save E self w = (Raise e, w') /\
                  (schema_name self ∉ catalog w') /\
                  rows w' !! key_after self w = None) /\
      (pk self ≠ None ->
       exists w', save E self w = (Raise e, w') /\
                  (schema_name self ∉ catalog w') /\
                  rows w' !! key_after self w = Some (Row (schema_name self)))
  end.
Proof.
  intros Hauto Hrow Hok.
  apply creation_ok_inv in Hok as [Hmiss Hnf].
  destruct (pk self) as [k|] eqn:Hpk.
  - (* a stored record whose namespace is missing *)
    assert (key_after self w = k) as Hkey by (unfold key_after; by rewrite Hpk).
    rewrite Hkey, (set_pk_same self k) by done.
    destruct (first_error _ self) as [e|] eqn:Hfe.
    + split; [done|]. intros _.
      rewrite (save_stored_missing E self k) by done.
      eexists. split.
      * apply bind_raise. eapply try_reraise; [|apply drop_schema_eq].
        erewrite bind_ok; [|rewrite create_schema_eq; cbn;
          rewrite bool_decide_eq_false_2 by done; by rewrite Hnf].
        rewrite send_eq, Hfe. done.
      * cbn. split; [|by rewrite lookup_insert_eq].
        apply not_elem_of_difference; right; by apply elem_of_singleton.
    + intros _. rewrite Hkey, (set_pk_same self k) by done.
      rewrite (save_stored_missing E self k) by done.
      eexists. split.
      * erewrite bind_ok; [done|]. apply try_ok.
        erewrite bind_ok; [|rewrite create_schema_eq; cbn;
          rewrite bool_decide_eq_false_2 by done; by rewrite Hnf].
        rewrite send_eq, Hfe. done.
      * cbn. split; [apply elem_of_union; left; by apply elem_of_singleton|].
        split; [by rewrite lookup_insert_eq|].
        eexists. split; [by rewrite <- !app_assoc|].
        repeat constructor; by case_bool_decide.
  - (* a new record *)
    assert (key_after self w = seq w) as Hkey by (unfold key_after; by rewrite Hpk).
    rewrite Hkey.
    destruct (first_error _ (set_pk self (seq w))) as [e|] eqn:Hfe.
    + split; [|done]. intros _ Hq.
      rewrite save_new_auto by done.
      eexists. split.
      * apply bind_raise. eapply try_reraise.
        -- erewrite bind_ok; [|rewrite create_schema_eq; cbn;
             rewrite bool_decide_eq_false_2 by done; by rewrite Hnf].
           rewrite send_eq, Hfe. done.
        -- rewrite (delete_forced_eq E _ (seq w)) by done.
           unfold quiet in Hq. by rewrite Hq.
      * cbn. split; [apply not_elem_of_difference; right; by apply elem_of_singleton|].
        by rewrite lookup_delete_eq.
    + intros _. rewrite Hkey. rewrite save_new_auto by done.
      eexists. split.
      * erewrite bind_ok; [done|]. apply try_ok.
        erewrite bind_ok; [|rewrite create_schema_eq; cbn;
          rewrite bool_decide_eq_false_2 by done; by rewrite Hnf].
        rewrite send_eq, Hfe. done.
      * cbn. split; [apply elem_of_union; left; by apply elem_of_singleton|].
        split; [by rewrite lookup_insert_eq|].
        eexists. split; [by rewrite <- !app_assoc|].
        repeat constructor.
Qed.

Lemma needs_sync_propagates E self w :
  pk self = None -> auto_create_schema self = false -> row_save_ok self w = true ->
  exists w',
    save E self w =
      (match first_error (receivers E schema_needs_sync) (set_pk self (seq w)) with
       | None => Ok (set_pk self (seq w))
       | Some e => Raise e
       end, w') /\
    rows w' !! seq w = Some (Row (schema_name self)) /\
    catalog w' = catalog w /\
    no_cleanup w w'.
Proof.
  intros Hpk Hauto Hrow. rewrite save_new_manual by done.
  unfold bind at 1. rewrite send_eq.
  destruct (first_error _ _) as [e|]; eexists; (split; [done|]); cbn;
    (split; [by rewrite lookup_insert_eq|]); (split; [done|]);
    (eexists; split; [by rewrite <- !app_assoc|]); repeat constructor.
Qed.

(** C7 (amended).  A [send] lets the exception of a receiver through.
    After the namespace was created, [save] succeeds without cleanup when
    no post-sync receiver raises; when one raises [e], the error is
    handled as a failed creation and [e] comes back: for a new tenant the
    namespace is dropped and the row deleted (no pre-drop receiver
    raising), for a stored tenant the namespace is dropped and the row
    kept.  Without automatic creation, [save] of a new tenant succeeds
    when no needs-sync receiver raises and raises the receiver's error
    otherwise, the row being kept and nothing cleaned up either way. *)
Theorem publication_propagates E self w :
  row_save_ok self w = true ->
  (auto_create_schema self = true ->
   is_ok (create_schema E self true w).1 = true ->
   match first_error (receivers E schema_post_sync) (set_pk self (key_after self w)) with
   | None => publication_isolated E self w
   | Some e =>
       (pk self = None -> quiet E schema_pre_drop (set_pk self (key_after self w)) ->
        exists w', save E self w = (Raise e, w') /\
                   (schema_name self ∉ catalog w') /\
                   rows w' !! key_after self w = None) /\
       (pk self ≠ None ->
        exists w', save E self w = (Raise e, w') /\
                   (schema_name self ∉ catalog w') /\
                   rows w' !! key_after self w = Some (Row (schema_name self)))
   end) /\
  (auto_create_schema self = false -> pk self = None ->
   exists w',
     save E self w =
       (match first_error (receivers E schema_needs_sync) (set_pk self (seq w)) with
        | None => Ok (set_pk self (seq w))
        | Some e => Raise e
        end, w') /\
     rows w' !! seq w = Some (Row (schema_name self)) /\
     no_cleanup w w').
Proof.
  intros Hrow. split.
  - intros Hauto Hok. by apply post_sync_propagates.
  - intros Hauto Hpk.
    destruct (needs_sync_propagates E self w Hpk Hauto Hrow) as (w' & Hs & Hr & _ & Hn).
    by exists w'.
Qed.

Lemma publication_propagates_witness :
  row_save_ok acme empty_world = true /\
  publication_isolated calm acme empty_world /\
  exists w', save post_sync_loud acme empty_world = (Raise (ReceiverError 7), w') /\
             ("acme" ∉ catalog w') /\ rows w' !! 1 = None.
Proof.
  split; [reflexivity|]. split.
  - exact (proj1 (publication_propagates calm acme empty_world eq_refl) eq_refl eq_refl).
  - exact (proj1 (proj1 (publication_propagates post_sync_loud acme empty_world eq_refl)
                    eq_refl eq_refl) eq_refl eq_refl).
Defined.

(** *** The naming rule *)




(** *** Scoped activation *)

Lemma enter_eq l s o :
  heap s !! l = Some o ->
  enter l s =
  (Ok tt, Session (schema_name o) (<[ l := set_previous_schema o (active s) ]> (heap s))).
Proof.
  intros Ho. unfold enter, activate, load, set_schema, bind, get, modify, ret.
  cbn. rewrite Ho. cbn. by rewrite lookup_insert_eq.
Qed.

Lemma enter_dangling l s :
  heap s !! l = None -> enter l s = (Raise AttributeError, s).
Proof.
  intros Ho. unfold enter, load, bind, get, raise. cbn. by rewrite Ho.
Qed.

Lemma exit_eq l s o p :
  heap s !! l = Some o -> previous_schema o = Some p ->
  exit l s = (Ok tt, Session p (heap s)).
Proof.
  intros Ho Hp. unfold exit, load, set_schema, bind, get, modify, ret.
  cbn. rewrite Ho. cbn. by rewrite Hp.
Qed.



(** Bodies that keep the attribute: whatever touches the connection
    only, and a scope on another instance. *)
Lemma set_schema_keeps l name : keeps_previous_schema l (set_schema name).
Proof. intros s o Ho. by exists o. Qed.

Lemma raise_keeps {A} l e : keeps_previous_schema l (raise e : M session A).
Proof. intros s o Ho. by exists o. Qed.

Lemma ret_keeps {A} l (a : A) : keeps_previous_schema l (ret a : M session A).
Proof. intros s o Ho. by exists o. Qed.

Lemma bind_keeps {A B} l (m : M session A) (k : A -> M session B) :
  keeps_previous_schema l m -> (forall a, keeps_previous_schema l (k a)) ->
  keeps_previous_schema l (bind m k).
Proof.
  intros Hm Hk s o Ho. unfold bind.
  destruct (Hm s o Ho) as (o1 & Ho1 & Hp1).
  destruct (m s) as [[a|e] s1]; cbn in *.
  - destruct (Hk a s1 o1 Ho1) as (o2 & Ho2 & Hp2). exists o2. split; [done|congruence].
  - by exists o1.
Qed.

Lemma with_other_keeps {A} l l' (body : M session A) :
  l ≠ l' -> keeps_previous_schema l body ->
  keeps_previous_schema l (with_tenant l' body).
Proof.
  intros Hne Hbody s o Ho. unfold with_tenant.
  destruct (heap s !! l') as [o'|] eqn:Ho'.
  - rewrite (enter_eq l' s o' Ho').
    set (s1 := Session _ _).
    destruct (Hbody s1 o) as (o1 & Ho1 & Hp1).
    { cbn. by rewrite lookup_insert_ne. }
    destruct (body s1) as [r s2]. cbn in *.
    assert (heap (exit l' s2).2 = heap s2) as Hh.
    { unfold exit, load, set_schema, bind, get, modify, raise. cbn.
      destruct (heap s2 !! l') as [x|]; [|done]. cbn.
      by destruct (previous_schema x). }
    destruct (exit l' s2) as [[u|e] s3]; cbn in *; exists o1; by rewrite Hh.
  - rewrite (enter_dangling l' s Ho'). by exists o.
Qed.


End TenantMixinFacts.

(** ** DomainMixin.save: frames, invariants, composition *)

Module DomainMixinMore.
Import DomainMixin DomainMixinFacts DomainInvariants.

(** A [save] that returns found the domain of [self] free. *)
Lemma save_ok_domain_free flt self d self' d' k :
  save flt self d = (Ok self', d') -> pk self' = Some k ->
  forall j r, rows d !! j = Some r -> row_domain r = domain self -> j = k.
Proof.
  unfold save, atomic, qs_exists, qs_update_demote, model_save, fault_at,
    nextval, put_row, bind, get, modify, ret, raise.
  destruct self as [p dm t ip]; destruct d as [m sq]; cbn.
  destruct (flt AtExists); [cbn; intros H; inversion H|].
  cbn. destruct (ip || negb (selects _ m)) eqn:Heff; cbn.
  - destruct (flt AtUpdate); [cbn; intros H; inversion H|]. cbn.
    destruct (flt AtSave); [cbn; intros H; inversion H|]. cbn.
    destruct p as [k0|]; cbn.
    + destruct (domain_taken _ _ _) eqn:Ht; intros H; inversion H; subst.
      cbn. intros [= <-]. rewrite domain_taken_demoted in Ht.
      by apply domain_taken_false.
    + destruct (domain_taken _ _ _ || _) eqn:Hchk; intros H; inversion H; subst.
      cbn. intros [= <-]. apply orb_false_iff in Hchk as [Ht _].
      rewrite domain_taken_demoted in Ht. by apply domain_taken_false.
  - destruct (flt AtSave); [cbn; intros H; inversion H|]. cbn.
    destruct p as [k0|]; cbn.
    + destruct (domain_taken _ _ _) eqn:Ht; intros H; inversion H; subst.
      cbn. intros [= <-]. by apply domain_taken_false.
    + destruct (domain_taken _ _ _ || _) eqn:Hchk; intros H; inversion H; subst.
      cbn. intros [= <-]. apply orb_false_iff in Hchk as [Ht _].
      by apply domain_taken_false.
Qed.

(** With a key of its own, a [save] that returns leaves the sequence
    alone. *)
Lemma save_stored_seq flt self d self' d' k :
  pk self = Some k -> save flt self d = (Ok self', d') -> seq d' = seq d.
Proof.
  unfold save, atomic, qs_exists, qs_update_demote, model_save, fault_at,
    nextval, put_row, bind, get, modify, ret, raise.
  destruct self as [p dm t ip]; destruct d as [m sq]; cbn. intros ->.
  destruct (flt AtExists); [cbn; intros H; inversion H|].
  cbn. destruct (ip || negb (selects _ m)) eqn:Heff; cbn.
  - destruct (flt AtUpdate); [cbn; intros H; inversion H|]. cbn.
    destruct (flt AtSave); [cbn; intros H; inversion H|]. cbn.
    destruct (domain_taken _ _ _) eqn:Ht; intros H; inversion H; subst. done.
  - destruct (flt AtSave); [cbn; intros H; inversion H|]. cbn.
    destruct (domain_taken _ _ _) eqn:Ht; intros H; inversion H; subst. done.
Qed.

(** X1.  [save] removes no row and rewrites none but its own: a row under
    another key keeps its domain and its tenant, and stays as it is
    altogether when it belongs to another tenant, is not primary, when
    the saved domain does not become primary, or when [save] raises. *)
Theorem save_leaves_other_rows flt self d j r :
  rows d !! j = Some r -> pk self ≠ Some j ->
  exists r',
    rows (save flt self d).2 !! j = Some r' /\
    row_domain r' = row_domain r /\ row_tenant r' = row_tenant r /\
    (row_tenant r ≠ tenant self \/ row_primary r = false \/
     effective_is_primary self d = false \/ is_ok (save flt self d).1 = false ->
     r' = r).
Proof.
  intros Hj Hne.
  destruct (save flt self d) as [[self'|e] d'] eqn:Hs; cbn.
  - apply save_ok in Hs as (k & Hk & -> & Hr). rewrite Hr.
    assert (j ≠ k) as Hjk by (destruct Hk as [Hk|[_ Hk]]; congruence).
    rewrite saved_rows_other, Hj by done. cbn.
    rewrite <- effective_agree.
    destruct (effective self d); [|exists r; done].
    unfold demote_in. destruct (other_primaries self j r) eqn:Hq.
    + exists (demote r). repeat split; [done..|].
      apply other_primaries_true in Hq as (Ht & Hp & _).
      intros [H|[H|[H|H]]]; congruence.
    + by exists r.
  - apply save_raise in Hs. rewrite Hs. by exists r.
Qed.

Lemma saved_other_domain self k d j r' :
  j ≠ k -> saved_rows self k d !! j = Some r' ->
  exists r, rows d !! j = Some r /\ row_domain r' = row_domain r.
Proof.
  intros Hj. rewrite saved_rows_other by done.
  destruct (rows d !! j) as [r|]; [|done]. intros [= <-]. exists r.
  split; [done|]. destruct (effective self d); [|done].
  unfold demote_in. by destruct (other_primaries self j r).
Qed.

Lemma step_domains_unique d rq :
  domains_unique (rows d) -> domains_unique (rows (step d rq)).
Proof.
  intros IH. unfold step.
  destruct (save rq.1 rq.2 d) as [[self'|e] d'] eqn:Hs; cbn;
    [|by rewrite (save_raise _ _ _ _ _ Hs)].
  pose proof (save_ok _ _ _ _ _ Hs) as (k & Hk & Hself & Hr).
  assert (pk self' = Some k) as Hpk by (by rewrite Hself).
  pose proof (save_ok_domain_free _ _ _ _ _ k Hs Hpk) as Hfree.
  rewrite Hr. intros j1 j2 r1 r2 H1 H2 Hd.
  destruct (decide (j1 = k)) as [->|N1], (decide (j2 = k)) as [->|N2]; [done|..].
  - rewrite saved_rows_self in H1. injection H1 as <-. cbn in Hd.
    apply saved_other_domain in H2 as (o2 & Ho2 & Hd2); [|done].
    symmetry. apply (Hfree j2 o2 Ho2). congruence.
  - rewrite saved_rows_self in H2. injection H2 as <-. cbn in Hd.
    apply saved_other_domain in H1 as (o1 & Ho1 & Hd1); [|done].
    apply (Hfree j1 o1 Ho1). congruence.
  - apply saved_other_domain in H1 as (o1 & Ho1 & Hd1); [|done].
    apply saved_other_domain in H2 as (o2 & Ho2 & Hd2); [|done].
    apply (IH j1 j2 o1 o2); congruence.
Qed.

(** X2.  When no two rows hold the same domain, no two rows do after any
    sequence of [save] calls, failed ones included. *)
Theorem saves_keep_domains_unique rqs d0 :
  domains_unique (rows d0) -> domains_unique (rows (run rqs d0)).
Proof.
  revert d0. induction rqs as [|rq rqs IH]; intros d0 H0; cbn; [done|].
  by apply IH, step_domains_unique.
Qed.

Lemma saves_keep_domains_unique_witness :
  domains_unique (rows empty_db) /\ domains_unique (rows (run handed_over empty_db)).
Proof.
  assert (domains_unique (rows empty_db)) as H0.
  { intros j1 j2 r1 r2 H1. cbn in H1. by rewrite lookup_empty in H1. }
  split; [exact H0|]. exact (saves_keep_domains_unique handed_over empty_db H0).
Defined.

(** X3.  Saving again the instance that a [save] returned, with no
    database error, returns it unchanged and leaves the table and the
    sequence as they are. *)
Theorem save_twice_is_save_once flt flt' self d self' d' :
  save flt self d = (Ok self', d') ->
  (forall st, flt' st = None) ->
  save flt' self' d' = (Ok self', d').
Proof.
  intros Hs Hflt.
  pose proof (save_ok _ _ _ _ _ Hs) as (k & Hk & Hself & Hr).
  assert (pk self' = Some k) as Hpk by (by rewrite Hself).
  assert (tenant self' = tenant self) as Hten by (by rewrite Hself).
  assert (is_primary self' = effective self d) as Hip by (by rewrite Hself).
  pose proof (save_ok_domain_free _ _ _ _ _ k Hs Hpk) as Hfree.
  assert (rows d' !! k = Some (row_of self')) as Hrow.
  { rewrite Hr, saved_rows_self. by rewrite Hself. }
  assert (forall j r, rows d' !! j = Some r -> row_domain r = domain self' -> j = k) as Hfree'.
  { intros j r Hj Hd. destruct (decide (j = k)) as [|Hjk]; [done|].
    rewrite Hr in Hj. apply saved_other_domain in Hj as (o & Ho & Hdo); [|done].
    apply (Hfree j o Ho). rewrite Hself in Hd. cbn in Hd. congruence. }
  assert (effective self' d' = is_primary self') as Heff.
  { unfold effective at 1. rewrite Hip.
    destruct (effective self d) eqn:He; [done|]. cbn.
    apply negb_false_iff, selects_spec.
    apply orb_false_iff in He as He'. destruct He' as [_ Hsel].
    apply negb_false_iff, selects_spec in Hsel as (j & r & Hj & Hq).
    apply other_primaries_true in Hq as Hq'. destruct Hq' as (Hrt & Hrp & Hne).
    assert (j ≠ k) as Hjk by (destruct Hk as [Hk|[_ Hk]]; congruence).
    exists j, r. split.
    - rewrite Hr. apply saved_other_kept; auto.
    - apply other_primaries_true. rewrite Hpk, Hten. repeat split; congruence. }
  assert (set_is_primary self' (is_primary self') = self') as Hfix0
    by (by destruct self').
  assert (set_pk self' k = self') as Hfix by (rewrite Hself; done).
  assert (saved_rows self' k d' = rows d') as Hsame.
  { unfold saved_rows. rewrite Heff, Hfix0.
    destruct (is_primary self') eqn:Hp; [|by apply insert_id].
    assert (map_imap (fun j r => Some (demote_in (other_primaries self') j r)) (rows d')
            = rows d') as ->; [|by apply insert_id].
    apply map_eq. intros j. rewrite map_lookup_imap.
    destruct (rows d' !! j) as [r|] eqn:Hj; [|done]. cbn. f_equal.
    unfold demote_in. destruct (other_primaries self' j r) eqn:Hq; [|done].
    apply other_primaries_true in Hq as (Hrt & Hrp & Hne). exfalso.
    assert (j ≠ k) as Hjk by congruence.
    rewrite Hr in Hj.
    rewrite (saved_other_demoted self k d Hk j r) in Hrp; [done|congruence|done..|congruence]. }
  destruct (save_succeeds flt' self' d' k Hflt (or_introl Hpk) Hfree') as (sq & Hs').
  pose proof (save_stored_seq _ _ _ _ _ k Hpk Hs') as Hseq. cbn in Hseq. subst sq.
  rewrite Hs', Heff, Hfix0, Hfix, Hsame. by destruct d'.
Qed.

Lemma save_twice_is_save_once_witness :
  save no_faults (Domain (Some 2) "b.example.com" 7 true) two_domains =
    (Ok (Domain (Some 2) "b.example.com" 7 true),
     (save no_faults (Domain (Some 2) "b.example.com" 7 true) two_domains).2) /\
  save no_faults (Domain (Some 2) "b.example.com" 7 true)
       (save no_faults (Domain (Some 2) "b.example.com" 7 true) two_domains).2 =
    (Ok (Domain (Some 2) "b.example.com" 7 true),
     (save no_faults (Domain (Some 2) "b.example.com" 7 true) two_domains).2).
Proof.
  assert (save no_faults (Domain (Some 2) "b.example.com" 7 true) two_domains =
          (Ok (Domain (Some 2) "b.example.com" 7 true),
           (save no_faults (Domain (Some 2) "b.example.com" 7 true) two_domains).2)) as Hs
    by (vm_compute; reflexivity).
  split; [exact Hs|].
  exact (save_twice_is_save_once no_faults no_faults _ _ _ _ Hs (fun _ => eq_refl)).
Defined.

Lemma save_leaves_other_rows_witness :
  rows two_domains !! 1 = Some (Row "a.example.com" 7 true) /\
  rows (save no_faults (Domain None "c.example.com" 8 true) two_domains).2 !! 1
    = Some (Row "a.example.com" 7 true).
Proof.
  split; [reflexivity|].
  destruct (save_leaves_other_rows no_faults (Domain None "c.example.com" 8 true)
              two_domains 1 (Row "a.example.com" 7 true) eq_refl ltac:(discriminate))
    as (r' & Hr & _ & _ & Heq).
  rewrite Hr. f_equal. apply Heq. left. cbn. discriminate.
Defined.

(** X4.  When no other domain of the tenant is primary, a [save] that
    returns leaves the domain primary, also when it was saved with
    [is_primary=False]: the only primary domain cannot be demoted. *)
Theorem sole_primary_stays_primary flt self d self' d' :
  save flt self d = (Ok self', d') ->
  (forall j r, rows d !! j = Some r -> row_tenant r = tenant self ->
               row_primary r = true -> pk self = Some j) ->
  is_primary self' = true /\
  exists k, pk self' = Some k /\
            rows d' !! k = Some (Row (domain self) (tenant self) true).
Proof.
  intros Hs Hsole.
  apply save_ok in Hs as (k & Hk & -> & Hr).
  assert (effective self d = true) as He.
  { unfold effective. apply orb_true_iff. right. apply negb_true_iff.
    destruct (selects _ _) eqn:Hsel; [|done].
    apply selects_spec in Hsel as (j & r & Hj & Hq).
    apply other_primaries_true in Hq as (Ht & Hp & Hne).
    by destruct (Hne (Hsole j r Hj Ht Hp)). }
  cbn. split; [done|]. exists k. split; [done|].
  rewrite Hr, saved_rows_self, He. done.
Qed.

Lemma sole_primary_stays_primary_witness :
  is_primary (Domain (Some 1) "a.example.com" 7 true) = true /\
  rows (save no_faults (Domain (Some 1) "a.example.com" 7 false) two_domains).2 !! 1
    = Some (Row "a.example.com" 7 true).
Proof.
  assert (save no_faults (Domain (Some 1) "a.example.com" 7 false) two_domains =
          (Ok (Domain (Some 1) "a.example.com" 7 true),
           (save no_faults (Domain (Some 1) "a.example.com" 7 false) two_domains).2)) as Hs
    by (vm_compute; reflexivity).
  assert (forall j r, rows two_domains !! j = Some r -> row_tenant r = 7 ->
                      row_primary r = true -> Some 1 = Some j) as Hsole.
  { intros j r Hj _ Hp.
    assert (rows two_domains = {[ 1 := Row "a.example.com" 7 true;
                                  2 := Row "b.example.com" 7 false ]}) as Hm
      by (by vm_compute).
    rewrite Hm in Hj. apply lookup_insert_Some in Hj as [[<- _]|[_ Hj]]; [done|].
    apply lookup_singleton_Some in Hj as [_ <-]. done. }
  destruct (sole_primary_stays_primary _ _ _ _ _ Hs Hsole) as (H1 & k & Hk & Hrow).
  split; [exact H1|]. injection Hk as <-. exact Hrow.
Defined.

Lemma domain_taken_true s k (m : gmap nat domain_row) j r :
  m !! j = Some r -> row_domain r = s -> j ≠ k -> domain_taken s k m = true.
Proof.
  intros Hj Hs Hne. unfold domain_taken. apply bool_decide_eq_true.
  exists j, r. done.
Qed.

(** X5.  Saving a domain that another row holds raises [IntegrityError]
    and leaves the table as it was, although the demotion had been made
    inside the transaction. *)
Theorem duplicate_domain_is_refused flt self d j r :
  (forall st, flt st = None) ->
  rows d !! j = Some r -> row_domain r = domain self -> pk self ≠ Some j ->
  exists sq, save flt self d = (Raise IntegrityError, Db (rows d) sq).
Proof.
  intros Hflt Hj Hd Hne.
  unfold save, atomic, qs_exists, qs_update_demote, model_save, fault_at,
    nextval, put_row, bind, get, modify, ret, raise.
  rewrite !Hflt.
  destruct self as [p dm t ip]; destruct d as [m sq]; cbn in *.
  set (qs := other_primaries _).
  assert (forall k, j ≠ k ->
            domain_taken dm k (map_imap (fun j r => Some (demote_in qs j r)) m) = true)
    as Htd.
  { intros k Hk. rewrite domain_taken_demoted. by apply (domain_taken_true _ _ _ j r). }
  destruct (ip || negb (selects qs m)) eqn:Heff; cbn; rewrite ?Hflt; cbn.
  - destruct p as [k|]; cbn.
    + rewrite Htd by congruence. by eexists.
    + destruct (decide (j = sq)) as [->|Hjs].
      * rewrite map_lookup_imap, Hj. cbn.
        rewrite ?orb_true_r. by eexists.
      * rewrite Htd by done. by eexists.
  - destruct p as [k|]; cbn.
    + rewrite (domain_taken_true _ _ _ j r) by congruence. by eexists.
    + destruct (decide (j = sq)) as [->|Hjs].
      * rewrite Hj. cbn. rewrite ?orb_true_r. by eexists.
      * rewrite (domain_taken_true _ _ _ j r) by done. by eexists.
Qed.

Lemma duplicate_domain_is_refused_witness :
  rows two_domains !! 1 = Some (Row "a.example.com" 7 true) /\
  exists sq, save no_faults (Domain None "a.example.com" 9 true) two_domains
             = (Raise IntegrityError, Db (rows two_domains) sq).
Proof.
  split; [reflexivity|].
  exact (duplicate_domain_is_refused no_faults (Domain None "a.example.com" 9 true)
           two_domains 1 (Row "a.example.com" 7 true)
           (fun _ => eq_refl) eq_refl eq_refl ltac:(discriminate)).
Defined.

End DomainMixinMore.
(** ** TenantMixin.get_primary_domain *)

Module TenantDomainsFacts.
Import DomainMixin DomainMixinFacts TenantDomains.

Lemma primary_domains_eq t d :
  filter (fun kr => row_primary kr.2 = true) (domains_of t d) = primaries_of t d.
Proof.
  unfold domains_of, primaries_of. rewrite map_filter_filter.
  apply map_filter_ext. intros i x _. cbn. tauto.
Qed.

Lemma qs_get_none (m : gmap nat domain_row) :
  qs_get m = inl DoesNotExist <-> m = ∅.
Proof.
  unfold qs_get. rewrite <- map_to_list_empty_iff.
  destruct (map_to_list m) as [|kr [|kr' l]]; split; intros H; done.
Qed.

Lemma qs_get_one (m : gmap nat domain_row) k r :
  qs_get m = inr (k, r) <-> m = {[ k := r ]}.
Proof.
  unfold qs_get. split.
  - destruct (map_to_list m) as [|kr [|kr' l]] eqn:Hl; intros H; inversion H; subst.
    rewrite <- (list_to_map_to_list m), Hl. cbn. by rewrite insert_empty.
  - intros ->. by rewrite map_to_list_singleton.
Qed.

Lemma qs_get_many (m : gmap nat domain_row) :
  qs_get m = inl MultipleObjectsReturned <-> 2 ≤ size m.
Proof.
  unfold qs_get. rewrite <- length_map_to_list.
  destruct (map_to_list m) as [|kr [|kr' l]]; cbn; split; intros H; try done; lia.
Qed.

(** X6.  [get_primary_domain] returns [None] exactly when the tenant has
    no primary domain, returns the domain when it has exactly one, and
    raises [MultipleObjectsReturned], which it does not catch, when it
    has two or more; [DoesNotExist] never comes out. *)
Theorem get_primary_domain_cases t d :
  (get_primary_domain t d = inr None <-> primaries_of t d = ∅) /\
  (forall k r, get_primary_domain t d = inr (Some (k, r)) <->
               primaries_of t d = {[ k := r ]}) /\
  (get_primary_domain t d = inl MultipleObjectsReturned <->
   2 ≤ size (primaries_of t d)) /\
  get_primary_domain t d ≠ inl DoesNotExist.
Proof.
  unfold get_primary_domain. rewrite primary_domains_eq.
  pose proof (qs_get_none (primaries_of t d)) as H0.
  pose proof (qs_get_many (primaries_of t d)) as H2.
  pose proof (fun k r => qs_get_one (primaries_of t d) k r) as H1.
  destruct (qs_get (primaries_of t d)) as [[]|[k0 r0]] eqn:Hg;
    (split; [split|split; [intros k r; split|split; [split|done]]]);
    try done.
  - intros _. by apply H0.
  - intros H. apply H1 in H. discriminate H.
  - intros H. apply H2 in H. discriminate H.
  - intros H. apply H0 in H. discriminate H.
  - intros H. apply H1 in H. discriminate H.
  - intros _. by apply H2.
  - intros H. apply H0 in H. discriminate H.
  - intros [= <- <-]. by apply H1.
  - intros H. apply H1 in H. by injection H as <- <-.
  - intros H. apply H2 in H. discriminate H.
Qed.

(** X7.  After a [save] that leaves the domain primary,
    [get_primary_domain] of its tenant returns that domain, whatever the
    table held before. *)
Theorem saved_primary_is_found flt self d self' d' :
  save flt self d = (Ok self', d') -> is_primary self' = true ->
  exists k, pk self' = Some k /\
    get_primary_domain (tenant self) d' =
      inr (Some (k, Row (domain self) (tenant self) true)).
Proof.
  intros Hs Hp.
  apply save_ok in Hs as (k & Hk & -> & Hr). cbn in Hp.
  exists k. split; [done|].
  apply (proj1 (proj2 (get_primary_domain_cases (tenant self) d'))).
  apply map_eq. intros j. destruct (decide (j = k)) as [->|Hj].
  - rewrite lookup_singleton_eq. apply primaries_lookup.
    rewrite Hr, saved_rows_self, Hp. done.
  - rewrite lookup_singleton_ne by done.
    destruct (primaries_of (tenant self) d' !! j) as [r|] eqn:Hl; [|done].
    apply primaries_lookup in Hl as [Hl [Ht Hpr]]. rewrite Hr in Hl.
    by rewrite (saved_other_demoted self k d Hk j r) in Hpr.
Qed.

Lemma saved_primary_is_found_witness :
  get_primary_domain 7 two_domains = inr (Some (1, Row "a.example.com" 7 true)) /\
  get_primary_domain 7
    (save no_faults (Domain (Some 2) "b.example.com" 7 true) two_domains).2 =
    inr (Some (2, Row "b.example.com" 7 true)).
Proof.
  split; [by vm_compute|].
  assert (save no_faults (Domain (Some 2) "b.example.com" 7 true) two_domains =
          (Ok (Domain (Some 2) "b.example.com" 7 true),
           (save no_faults (Domain (Some 2) "b.example.com" 7 true) two_domains).2)) as Hs
    by (vm_compute; reflexivity).
  destruct (saved_primary_is_found _ _ _ _ _ Hs eq_refl) as (k & Hk & Hg).
  injection Hk as <-. exact Hg.
Defined.

(** X8.  Starting without domains of tenant [t], after any sequence of
    [save] calls [get_primary_domain] does not raise; it returns a
    primary domain of [t] when [t] has a domain and none was handed to
    another tenant. *)
Theorem get_primary_domain_after_saves t rqs d0 :
  domains_of t d0 = ∅ ->
  (exists o, get_primary_domain t (run rqs d0) = inr o) /\
  (none_taken_away t rqs d0 = true -> domains_of t (run rqs d0) ≠ ∅ ->
   exists k r, get_primary_domain t (run rqs d0) = inr (Some (k, r)) /\
               rows (run rqs d0) !! k = Some r /\
               row_tenant r = t /\ row_primary r = true).
Proof.
  intros H0.
  assert (size (primaries_of t (run rqs d0)) ≤ 1) as Hle.
  { apply at_most_one_size, run_at_most_one. by apply no_domains_at_most_one. }
  destruct (get_primary_domain_cases t (run rqs d0)) as (Hnone & Hone & Hmany & Hdne).
  destruct (get_primary_domain t (run rqs d0)) as [[]|[[k r]|]] eqn:Hg.
  - done.
  - pose proof (proj1 Hmany eq_refl). lia.
  - split; [by eexists|]. intros _ _. exists k, r. split; [done|].
    pose proof (proj1 (Hone k r) eq_refl) as Hg'.
    assert (primaries_of t (run rqs d0) !! k = Some r) as Hl
      by (by rewrite Hg', lookup_singleton_eq).
    apply primaries_lookup in Hl as [Hl [Ht Hp]]. done.
  - split; [by eexists|]. intros Hn Hne. exfalso.
    assert (size (primaries_of t (run rqs d0)) ≠ 0) as Hsz.
    { apply has_primary_size, run_has_primary; done. }
    apply Hsz, map_size_empty_iff. by apply Hnone.
Qed.

Lemma get_primary_domain_after_saves_witness :
  domains_of 7 empty_db = ∅ /\
  (exists o, get_primary_domain 7 (run handed_over empty_db) = inr o) /\
  exists k r, get_primary_domain 7 two_domains = inr (Some (k, r)) /\
              rows two_domains !! k = Some r /\
              row_tenant r = 7 /\ row_primary r = true.
Proof.
  split; [by vm_compute|]. split.
  - exact (proj1 (get_primary_domain_after_saves 7 handed_over empty_db eq_refl)).
  - exact (proj2 (get_primary_domain_after_saves 7 (take 2 handed_over) empty_db eq_refl)
             eq_refl ltac:(by vm_compute)).
Defined.

End TenantDomainsFacts.
(** ** TenantMixin.save and TenantMixin.delete: frames, invariants, composition *)

Module TenantMixinMore.
Import TenantMixin TenantMixinFacts TenantInvariants.

(** *** What each piece touches *)

Lemma touches_refl name k w : touches_only name k w w.
Proof.
  split; [by left|split; [done|split; [|done]]]. exists []. by rewrite app_nil_r.
Qed.

Lemma touches_trans name k w1 w2 w3 :
  touches_only name k w1 w2 -> touches_only name k w2 w3 -> touches_only name k w1 w3.
Proof.
  intros (Hr1 & Hc1 & [l1 Hl1] & Hs1) (Hr2 & Hc2 & [l2 Hl2] & Hs2).
  split; [|split; [|split]].
  - destruct Hr2 as [->| ->], Hr1 as [->| ->]; auto.
    right. by rewrite delete_delete_eq.
  - intros n Hn. by rewrite (Hc2 n Hn), (Hc1 n Hn).
  - exists (l1 ++ l2). by rewrite Hl2, Hl1, app_assoc.
  - congruence.
Qed.

Lemma touching_ret {A} name k (a : A) : touching name k (ret a).
Proof. intros w. apply touches_refl. Qed.

Lemma touching_raise {A} name k e : touching name k (raise e : M world A).
Proof. intros w. apply touches_refl. Qed.

Lemma touching_bind {A B} name k (m : M world A) (f : A -> M world B) :
  touching name k m -> (forall a, touching name k (f a)) -> touching name k (bind m f).
Proof.
  intros Hm Hf w. unfold bind. specialize (Hm w).
  destruct (m w) as [[a|e] w1]; cbn in *; [|done].
  eapply touches_trans; [exact Hm|apply Hf].
Qed.

Lemma touching_try {A} name k (body : M world A) handler :
  touching name k body -> touching name k handler ->
  touching name k (try_except_reraise body handler).
Proof.
  intros Hb Hh w. unfold try_except_reraise. specialize (Hb w).
  destruct (body w) as [[a|e] w1]; cbn in *; [done|].
  specialize (Hh w1). destruct (handler w1) as [[u|e'] w2]; cbn in *;
    eapply touches_trans; eauto.
Qed.

Lemma touching_send name k E sig t : touching name k (send E sig t).
Proof.
  intros w. rewrite send_eq. cbn.
  split; [by left|split; [done|split; [by eexists|done]]].
Qed.

Lemma touching_create E self k :
  touching (schema_name self) k (create_schema E self true).
Proof.
  intros w. rewrite create_schema_eq.
  case_bool_decide; [apply touches_refl|].
  destruct (ddl_fault E (schema_name self)) as [[e []]|]; cbn;
    (split; [by left|split; [|split; [by eexists|done]]]); cbn; intros n Hn;
    try done; rewrite elem_of_union, elem_of_singleton; tauto.
Qed.

Lemma touching_drop self k : touching (schema_name self) k (drop_schema self).
Proof.
  intros w. rewrite drop_schema_eq. cbn.
  split; [by left|split; [|split; [by eexists|done]]]. cbn. intros n Hn.
  rewrite elem_of_difference, elem_of_singleton. tauto.
Qed.

Lemma touching_model_delete name self k :
  pk self = Some k -> touching name k (model_delete self).
Proof.
  intros Hpk w. unfold model_delete. rewrite Hpk.
  unfold emit, set_rows, bind, modify. cbn.
  split; [by right|split; [done|split; [by eexists|done]]].
Qed.

Lemma touching_delete E self k force :
  pk self = Some k -> touching (schema_name self) k (delete E self force).
Proof.
  intros Hpk. unfold delete. apply touching_bind.
  - destruct (force || auto_drop_schema self); [|apply touching_ret].
    apply touching_bind; [apply touching_send|intros _; apply touching_drop].
  - intros _. by apply touching_model_delete.
Qed.

(** *** The row write *)

Lemma name_taken_true s k (m : gmap nat tenant_row) j r :
  m !! j = Some r -> row_schema_name r = s -> j ≠ k -> name_taken s k m = true.
Proof.
  intros Hj Hs Hne. unfold name_taken. apply bool_decide_eq_true.
  exists j, r. done.
Qed.

Lemma name_taken_false s k (m : gmap nat tenant_row) :
  name_taken s k m = false <->
  forall j r, m !! j = Some r -> row_schema_name r = s -> j = k.
Proof.
  unfold name_taken. rewrite bool_decide_eq_false. split.
  - intros Hn j r Hj Hs. destruct (decide (j = k)); [done|].
    exfalso. apply Hn. exists j, r. done.
  - intros H (j & r & Hj & Hs & Hne). by apply Hne, (H j r).
Qed.

(** [super().save()] raises [IntegrityError] and writes nothing, or
    writes the row of [self] under its key. *)
Lemma model_save_cases self w :
  (exists sq, model_save self w =
     (Raise IntegrityError, World (rows w) sq (catalog w) (log w))) \/
  (name_taken (schema_name self) (key_after self w) (rows w) = false /\
   exists a sq,
     is_row_write a = true /\
     model_save self w =
       (Ok (set_pk self (key_after self w)),
        World (<[ key_after self w := Row (schema_name self) ]> (rows w)) sq
              (catalog w) (log w ++ [a]))).
Proof.
  unfold model_save, key_after, nextval, emit, set_rows, bind, get, modify, ret, raise.
  destruct (pk self) as [k|] eqn:Hpk; cbn.
  - destruct (name_taken _ _ _) eqn:Ht.
    + left. destruct w. by eexists.
    + right. split; [done|]. rewrite (set_pk_same self k Hpk).
      eexists _, _. split; [|done]. by case_bool_decide.
  - destruct (name_taken _ _ _) eqn:Ht; cbn.
    + left. by eexists.
    + destruct (bool_decide (is_Some (rows w !! seq w))); cbn.
      * left. by eexists.
      * right. split; [done|]. by eexists (InsertRow _ _), _.
Qed.

(** [save], as the row write followed by steps that touch nothing but
    the row and the namespace of [self]. *)
Lemma save_touches E self w :
  exists w1,
    (rows w1 = rows w \/
     (name_taken (schema_name self) (key_after self w) (rows w) = false /\
      rows w1 = <[ key_after self w := Row (schema_name self) ]> (rows w))) /\
    catalog w1 = catalog w /\
    (exists l, log w1 = log w ++ l) /\
    touches_only (schema_name self) (key_after self w) w1 (save E self w).2.
Proof.
  unfold save.
  destruct (model_save_cases self w) as [(sq & Hm)|(Hfree & a & sq & _ & Hm)].
  - rewrite (bind_raise _ _ _ _ _ Hm).
    exists (World (rows w) sq (catalog w) (log w)). cbn.
    split; [by left|]. split; [done|]. split; [|apply touches_refl].
    exists []. by rewrite app_nil_r.
  - rewrite (bind_ok _ _ _ _ _ Hm).
    exists (World (<[ key_after self w := Row (schema_name self) ]> (rows w)) sq
                  (catalog w) (log w ++ [a])).
    split; [right; by split|]. split; [done|]. split; [by eexists|].
    set (self1 := set_pk self (key_after self w)).
    assert (pk self1 = Some (key_after self w)) as Hpk1 by done.
    change (schema_name self) with (schema_name self1).
    match goal with |- touches_only ?n ?k ?w1 (?m ?w1).2 =>
      cut (touching n k m); [intros Hcut; apply Hcut|] end.
    cbv beta. change (auto_create_schema self1) with (auto_create_schema self).
    destruct (bool_decide (pk self = None)); simpl andb; simpl negb; cbv iota.
    + destruct (auto_create_schema self).
      * apply touching_bind; [|intros _; apply touching_ret].
        apply touching_try; [|by apply touching_delete].
        apply touching_bind; [apply touching_create|intros _; apply touching_send].
      * apply touching_bind; [apply touching_send|intros _; apply touching_ret].
    + apply touching_bind.
      * destruct (auto_create_schema self); [|apply touching_ret].
        apply touching_bind; [|intros e; apply touching_ret].
        intros w1. apply touches_refl.
      * intros [|]; [|apply touching_ret].
        apply touching_bind; [|intros _; apply touching_ret].
        apply touching_try; [|apply touching_drop].
        apply touching_bind; [apply touching_create|intros _; apply touching_send].
Qed.

Lemma touching_delete_unsaved E self k force :
  pk self = None -> touching (schema_name self) k (delete E self force).
Proof.
  intros Hpk. unfold delete. apply touching_bind.
  - destruct (force || auto_drop_schema self); [|apply touching_ret].
    apply touching_bind; [apply touching_send|intros _; apply touching_drop].
  - intros _. unfold model_delete. rewrite Hpk. apply touching_raise.
Qed.

Lemma touches_rows name k w w' j :
  touches_only name k w w' -> j ≠ k -> rows w' !! j = rows w !! j.
Proof.
  intros ([->| ->] & _) Hj; [done|]. by rewrite lookup_delete_ne.
Qed.

(** *** Frames *)

(** X9.  Whatever the receivers do and however the creation ends,
    [TenantMixin.save] leaves every row under another key and every
    namespace of another name as they were, and only adds to the log. *)
Theorem save_touches_only_its_own E self w :
  (forall j, j ≠ key_after self w ->
             rows (save E self w).2 !! j = rows w !! j) /\
  (forall n, n ≠ schema_name self ->
             n ∈ catalog (save E self w).2 <-> n ∈ catalog w) /\
  (exists l, log (save E self w).2 = log w ++ l).
Proof.
  destruct (save_touches E self w) as (w1 & Hr1 & Hc1 & [l1 Hl1] & Ht).
  split; [|split].
  - intros j Hj. rewrite (touches_rows _ _ _ _ j Ht Hj).
    destruct Hr1 as [->|[_ ->]]; [done|]. by rewrite lookup_insert_ne.
  - intros n Hn. destruct Ht as (_ & Hc & _). by rewrite (Hc n Hn), Hc1.
  - destruct Ht as (_ & _ & [l Hl] & _). exists (l1 ++ l).
    by rewrite Hl, Hl1, app_assoc.
Qed.

Lemma delete_unsaved_eq E self force w :
  pk self = None ->
  delete E self force w =
  if force || auto_drop_schema self then
    match first_error (receivers E schema_pre_drop) self with
    | Some e =>
        (Raise e, World (rows w) (seq w) (catalog w)
                        (log w ++ [Send schema_pre_drop None (schema_name self)]))
    | None =>
        (Raise ValueError,
         World (rows w) (seq w) (catalog w ∖ {[ schema_name self ]})
               (log w ++ [Send schema_pre_drop None (schema_name self);
                          DropSchema (schema_name self)]))
    end
  else (Raise ValueError, w).
Proof.
  intros Hpk. unfold delete, serializable_fields, model_delete. rewrite Hpk.
  destruct (force || auto_drop_schema self); [|done].
  unfold bind at 1. unfold bind at 1. rewrite send_eq, Hpk.
  destruct (first_error _ _); [done|].
  rewrite drop_schema_eq. unfold raise. cbn. by rewrite <- !app_assoc.
Qed.

(** X10.  [TenantMixin.delete] leaves every other row and every namespace
    of another name as they were, and only adds to the log. *)
Theorem delete_touches_only_its_own E self force w :
  (forall j, pk self ≠ Some j ->
             rows (delete E self force w).2 !! j = rows w !! j) /\
  (forall n, n ≠ schema_name self ->
             n ∈ catalog (delete E self force w).2 <-> n ∈ catalog w) /\
  (exists l, log (delete E self force w).2 = log w ++ l).
Proof.
  destruct (pk self) as [k|] eqn:Hpk.
  - pose proof (touching_delete E self k force Hpk w) as Ht.
    split; [|split]; [|apply Ht..].
    intros j Hj. apply (touches_rows _ _ _ _ j Ht). congruence.
  - pose proof (touching_delete_unsaved E self 0 force Hpk w) as Ht.
    split; [|split]; [|apply Ht..].
    intros j _. rewrite delete_unsaved_eq by done.
    destruct (force || auto_drop_schema self); [|done].
    by destruct (first_error _ _).
Qed.

(** *** The unique index *)

Lemma names_unique_insert (m : gmap nat tenant_row) k name :
  names_unique m -> name_taken name k m = false ->
  names_unique (<[ k := Row name ]> m).
Proof.
  intros Hu Hfree0.
  pose proof (proj1 (name_taken_false name k m) Hfree0) as Hfree.
  intros j1 j2 r1 r2 H1 H2 Hn.
  apply lookup_insert_Some in H1 as [[<- <-]|[N1 H1]];
    apply lookup_insert_Some in H2 as [[<- <-]|[N2 H2]]; [done|..].
  - symmetry. by apply (Hfree j2 r2).
  - by apply (Hfree j1 r1).
  - by apply (Hu j1 j2 r1 r2).
Qed.

Lemma names_unique_delete (m : gmap nat tenant_row) k :
  names_unique m -> names_unique (base.delete k m).
Proof.
  intros Hu j1 j2 r1 r2 H1 H2.
  apply lookup_delete_Some in H1 as [_ H1], H2 as [_ H2]. by apply (Hu j1 j2 r1 r2).
Qed.

(** X11.  When no two rows hold the same [schema_name], no two rows do
    after [save], however it ends. *)
Theorem save_keeps_names_unique E self w :
  names_unique (rows w) -> names_unique (rows (save E self w).2).
Proof.
  intros Hu.
  destruct (save_touches E self w) as (w1 & Hr1 & _ & _ & Hr & _).
  assert (names_unique (rows w1)) as Hu1.
  { destruct Hr1 as [->|[Hfree ->]]; [done|]. by apply names_unique_insert. }
  destruct Hr as [->| ->]; [done|]. by apply names_unique_delete.
Qed.

Lemma save_keeps_names_unique_witness :
  names_unique (rows acme_row_only) /\
  names_unique (rows (save calm pg_acme acme_row_only).2).
Proof.
  assert (names_unique (rows acme_row_only)) as Hu.
  { intros j1 j2 r1 r2 H1 H2 _. cbn in H1, H2.
    apply lookup_singleton_Some in H1 as [<- _], H2 as [<- _]. done. }
  split; [exact Hu|]. exact (save_keeps_names_unique calm pg_acme acme_row_only Hu).
Defined.

(** *** A name that is taken *)

(** X12.  Saving a tenant whose name another row holds raises
    [IntegrityError] before anything else happens: no row is written, no
    namespace created or dropped, no signal sent. *)
Theorem duplicate_name_is_refused E self w j r :
  rows w !! j = Some r -> row_schema_name r = schema_name self -> pk self ≠ Some j ->
  exists sq,
    save E self w = (Raise IntegrityError, World (rows w) sq (catalog w) (log w)).
Proof.
  intros Hj Hn Hne.
  assert (exists sq, model_save self w =
            (Raise IntegrityError, World (rows w) sq (catalog w) (log w)))
    as (sq & Hm).
  { unfold model_save, nextval, emit, set_rows, bind, get, modify, ret, raise.
    destruct (pk self) as [k|] eqn:Hpk; cbn.
    - rewrite (name_taken_true _ _ _ j r) by congruence. destruct w. by eexists.
    - destruct (decide (j = seq w)) as [->|Hjs].
      + rewrite Hj. cbn. rewrite ?orb_true_r. by eexists.
      + rewrite (name_taken_true _ _ _ j r) by done. by eexists. }
  exists sq. unfold save. by apply bind_raise.
Qed.

Lemma duplicate_name_is_refused_witness :
  rows acme_row_only !! 1 = Some (Row "acme") /\
  exists sq, save calm acme acme_row_only
             = (Raise IntegrityError, World (rows acme_row_only) sq ∅ []).
Proof.
  split; [reflexivity|].
  exact (duplicate_name_is_refused calm acme acme_row_only 1 (Row "acme")
           eq_refl eq_refl ltac:(discriminate)).
Defined.

(** *** Without automatic creation *)

(** X13.  With [auto_create_schema] off, [save] creates and drops no
    namespace, whether the tenant is new or stored and however the call
    ends. *)
Theorem manual_type_issues_no_ddl E self w :
  auto_create_schema self = false ->
  catalog (save E self w).2 = catalog w /\
  filter (fun a => is_ddl a = true) (log (save E self w).2) =
    filter (fun a => is_ddl a = true) (log w).
Proof.
  intros Hauto. unfold save.
  destruct (model_save_cases self w) as [(sq & Hm)|(Hfree & a & sq & Ha & Hm)].
  - rewrite (bind_raise _ _ _ _ _ Hm). done.
  - rewrite (bind_ok _ _ _ _ _ Hm). cbv beta.
    change (auto_create_schema (set_pk self (key_after self w)))
      with (auto_create_schema self).
    rewrite Hauto, !andb_false_r.
    assert (filter (fun a => is_ddl a = true) (log w ++ [a]) =
            filter (fun a => is_ddl a = true) (log w)) as Hl.
    { rewrite filter_app. destruct a; try done; cbn; by rewrite app_nil_r. }
    destruct (bool_decide (pk self = None)); cbv iota.
    + unfold bind. rewrite !send_eq.
      destruct (first_error _ _); cbn; (split; [done|]);
        by rewrite filter_app, Hl, app_nil_r.
    + cbn. done.
Qed.

Lemma manual_type_issues_no_ddl_witness :
  auto_create_schema pg_acme = false /\
  catalog (save post_sync_loud pg_acme empty_world).2 = ∅ /\
  filter (fun a => is_ddl a = true) (log (save post_sync_loud pg_acme empty_world).2) = [].
Proof.
  split; [reflexivity|].
  exact (manual_type_issues_no_ddl post_sync_loud pg_acme empty_world eq_refl).
Defined.

(** *** Closed forms of whole calls *)

Lemma save_new_auto_ok E self w :
  pk self = None -> auto_create_schema self = true -> row_save_ok self w = true ->
  is_ok (create_schema E self true w).1 = true ->
  quiet E schema_post_sync (set_pk self (seq w)) ->
  save E self w =
  (Ok (set_pk self (seq w)),
   World (<[ seq w := Row (schema_name self) ]> (rows w)) (S (seq w))
         ({[ schema_name self ]} ∪ catalog w)
         (log w ++ [InsertRow (seq w) (schema_name self);
                    CreateSchema (schema_name self);
                    Send schema_post_sync (Some (seq w)) (schema_name self)])).
Proof.
  intros Hpk Hauto Hrow Hok Hq.
  apply creation_ok_inv in Hok as [Hmiss Hnf].
  rewrite save_new_auto by done.
  erewrite bind_ok; [reflexivity|].
  erewrite try_ok; [reflexivity|].
  erewrite bind_ok; [|rewrite create_schema_eq; cbn;
    rewrite bool_decide_eq_false_2 by done; by rewrite Hnf].
  rewrite send_eq. unfold quiet in Hq. rewrite Hq. cbn.
  by rewrite <- !app_assoc.
Qed.

Lemma save_stored_in_place E self k w :
  pk self = Some k -> row_save_ok self w = true ->
  auto_create_schema self = false \/ schema_name self ∈ catalog w ->
  save E self w =
  (Ok self,
   World (<[ k := Row (schema_name self) ]> (rows w)) (seq w) (catalog w)
         (log w ++ [if bool_decide (is_Some (rows w !! k))
                    then UpdateRow k (schema_name self)
                    else InsertRow k (schema_name self)])).
Proof.
  intros Hpk Hrow Hwhy.
  unfold save. rewrite (bind_ok _ _ _ _ _ (model_save_stored self w k Hpk Hrow)).
  rewrite Hpk. simpl bool_decide. simpl andb. simpl negb. cbv iota.
  destruct (auto_create_schema self) eqn:Hauto.
  - destruct Hwhy as [|Hin]; [done|].
    unfold schema_exists, bind, get, ret. cbn.
    by rewrite bool_decide_eq_true_2.
  - done.
Qed.

Lemma delete_plain_eq E self k force w :
  pk self = Some k -> force || auto_drop_schema self = false ->
  delete E self force w =
  (Ok tt, World (base.delete k (rows w)) (seq w) (catalog w) (log w ++ [DeleteRow k])).
Proof.
  intros Hpk Hno. unfold delete, model_delete. rewrite Hno, Hpk. done.
Qed.

Lemma delete_dropping_eq E self k force w :
  pk self = Some k -> force || auto_drop_schema self = true ->
  delete E self force w =
  match first_error (receivers E schema_pre_drop) self with
  | Some e =>
      (Raise e, World (rows w) (seq w) (catalog w)
                      (log w ++ [Send schema_pre_drop (Some k) (schema_name self)]))
  | None =>
      (Ok tt, World (base.delete k (rows w)) (seq w) (catalog w ∖ {[ schema_name self ]})
                    (log w ++ [Send schema_pre_drop (Some k) (schema_name self);
                               DropSchema (schema_name self); DeleteRow k]))
  end.
Proof.
  intros Hpk Hyes. unfold delete, serializable_fields. rewrite Hyes.
  unfold bind at 1. unfold bind at 1. rewrite send_eq, Hpk.
  destruct (first_error _ _); [done|].
  rewrite drop_schema_eq. unfold model_delete. rewrite Hpk.
  unfold emit, set_rows, bind, modify. cbn. by rewrite <- !app_assoc.
Qed.

Lemma row_save_ok_again self w :
  pk self = None -> row_save_ok self w = true ->
  forall c l sq,
    row_save_ok (set_pk self (seq w))
      (World (<[ seq w := Row (schema_name self) ]> (rows w)) sq c l) = true.
Proof.
  intros Hpk Hrow c l sq. destruct (row_save_ok_new self w Hpk Hrow) as [Hfree _].
  unfold row_save_ok, key_after. cbn. rewrite andb_true_r.
  apply negb_true_iff, name_taken_false. intros j r Hj Hn.
  apply lookup_insert_Some in Hj as [[<- _]|[_ Hj]]; [done|].
  by apply (proj1 (name_taken_false _ _ _) Hfree j r).
Qed.

(** *** A stored tenant whose namespace needs no creation *)

(** X14.  For a stored tenant whose namespace exists, or whose type has
    automatic creation off, [save] writes the row and nothing else: no
    signal is sent, whatever receivers are connected. *)
Theorem stored_save_only_writes_row E self k w :
  pk self = Some k -> row_save_ok self w = true ->
  auto_create_schema self = false \/ schema_name self ∈ catalog w ->
  exists w' a,
    save E self w = (Ok self, w') /\
    rows w' = <[ k := Row (schema_name self) ]> (rows w) /\
    catalog w' = catalog w /\
    log w' = log w ++ [a] /\ is_row_write a = true.
Proof.
  intros Hpk Hrow Hwhy. eexists _, _.
  split; [by apply (save_stored_in_place E self k)|].
  cbn. repeat split. by case_bool_decide.
Qed.

(** X15.  After the [save] that created a tenant and its namespace, saving
    the instance again returns, updates the row in place, and creates
    nothing and sends nothing. *)
Theorem save_again_after_creation E self w :
  pk self = None -> auto_create_schema self = true -> row_save_ok self w = true ->
  is_ok (create_schema E self true w).1 = true ->
  quiet E schema_post_sync (set_pk self (seq w)) ->
  exists self1 w1 w2,
    save E self w = (Ok self1, w1) /\
    save E self1 w1 = (Ok self1, w2) /\
    rows w2 = rows w1 /\ catalog w2 = catalog w1 /\
    log w2 = log w1 ++ [UpdateRow (seq w) (schema_name self)].
Proof.
  intros Hpk Hauto Hrow Hok Hq.
  eexists _, _, _. split; [by apply save_new_auto_ok|]. split.
  - apply (save_stored_in_place E _ (seq w)); [done| |].
    + by apply row_save_ok_again.
    + right. cbn. apply elem_of_union. left. by apply elem_of_singleton.
  - cbn. rewrite lookup_insert_eq. split; [|done].
    by rewrite insert_insert_eq.
Qed.

Lemma stored_save_only_writes_row_witness :
  row_save_ok (set_pk pg_acme 1) acme_row_only = true /\
  exists w' a,
    save post_sync_loud (set_pk pg_acme 1) acme_row_only = (Ok (set_pk pg_acme 1), w') /\
    rows w' = <[ 1 := Row "pg_acme" ]> (rows acme_row_only) /\
    catalog w' = ∅ /\
    log w' = [a] /\ is_row_write a = true.
Proof.
  split; [reflexivity|].
  exact (stored_save_only_writes_row post_sync_loud (set_pk pg_acme 1) 1 acme_row_only
           eq_refl eq_refl (or_introl eq_refl)).
Defined.

Lemma save_again_after_creation_witness :
  row_save_ok acme empty_world = true /\
  exists self1 w1 w2,
    save calm acme empty_world = (Ok self1, w1) /\
    save calm self1 w1 = (Ok self1, w2) /\
    rows w2 = rows w1 /\ catalog w2 = catalog w1 /\
    log w2 = log w1 ++ [UpdateRow 1 "acme"].
Proof.
  split; [reflexivity|].
  exact (save_again_after_creation calm acme empty_world
           eq_refl eq_refl eq_refl eq_refl eq_refl).
Defined.

(** *** Creation and deletion *)

(** X16.  Creating a tenant and deleting it with the namespace dropped
    ([force_drop], or [auto_drop_schema]) gives back the table and the
    catalog as they were, when no receiver raises; the actions are the
    insert, the creation, post-sync, pre-drop, the drop and the deletion,
    in this order. *)
Theorem create_then_force_delete E self w :
  pk self = None -> auto_create_schema self = true -> row_save_ok self w = true ->
  is_ok (create_schema E self true w).1 = true ->
  quiet E schema_post_sync (set_pk self (seq w)) ->
  quiet E schema_pre_drop (set_pk self (seq w)) ->
  forall force, force || auto_drop_schema self = true ->
  exists self1 w1 w2,
    save E self w = (Ok self1, w1) /\
    delete E self1 force w1 = (Ok tt, w2) /\
    rows w2 = rows w /\ catalog w2 = catalog w /\
    log w2 = log w ++ [InsertRow (seq w) (schema_name self);
                       CreateSchema (schema_name self);
                       Send schema_post_sync (Some (seq w)) (schema_name self);
                       Send schema_pre_drop (Some (seq w)) (schema_name self);
                       DropSchema (schema_name self);
                       DeleteRow (seq w)].
Proof.
  intros Hpk Hauto Hrow Hok Hqs Hqd force Hforce.
  destruct (row_save_ok_new self w Hpk Hrow) as [_ Hk].
  pose proof (creation_ok_inv E self w Hok) as [Hmiss _].
  eexists _, _, _. split; [by apply save_new_auto_ok|]. split.
  - rewrite (delete_dropping_eq E _ (seq w)) by done.
    unfold quiet in Hqd. by rewrite Hqd.
  - cbn. split; [by apply delete_insert_id|]. split; [|by rewrite <- !app_assoc].
    apply set_eq. intros n.
    rewrite elem_of_difference, elem_of_union, elem_of_singleton.
    split; [tauto|]. intros Hn. split; [by right|]. by intros ->.
Qed.

Lemma create_then_force_delete_witness :
  row_save_ok acme empty_world = true /\
  exists self1 w1 w2,
    save calm acme empty_world = (Ok self1, w1) /\
    delete calm self1 true w1 = (Ok tt, w2) /\
    rows w2 = ∅ /\ catalog w2 = ∅ /\
    log w2 = [InsertRow 1 "acme"; CreateSchema "acme";
              Send schema_post_sync (Some 1) "acme";
              Send schema_pre_drop (Some 1) "acme";
              DropSchema "acme"; DeleteRow 1].
Proof.
  split; [reflexivity|].
  exact (create_then_force_delete calm acme empty_world
           eq_refl eq_refl eq_refl eq_refl eq_refl eq_refl true eq_refl).
Defined.

(** X17.  Creating a tenant and deleting it without [force_drop], with
    [auto_drop_schema] off, removes the row and leaves the namespace: no
    pre-drop signal is sent and nothing is dropped. *)
Theorem create_then_plain_delete E self w :
  pk self = None -> auto_create_schema self = true -> row_save_ok self w = true ->
  is_ok (create_schema E self true w).1 = true ->
  quiet E schema_post_sync (set_pk self (seq w)) ->
  auto_drop_schema self = false ->
  exists self1 w1 w2,
    save E self w = (Ok self1, w1) /\
    delete E self1 false w1 = (Ok tt, w2) /\
    rows w2 = rows w /\
    (schema_name self ∈ catalog w2) /\
    log w2 = log w1 ++ [DeleteRow (seq w)].
Proof.
  intros Hpk Hauto Hrow Hok Hqs Hdrop.
  destruct (row_save_ok_new self w Hpk Hrow) as [_ Hk].
  eexists _, _, _. split; [by apply save_new_auto_ok|]. split.
  - by apply (delete_plain_eq E _ (seq w)).
  - cbn. split; [by apply delete_insert_id|]. split; [|done].
    apply elem_of_union. left. by apply elem_of_singleton.
Qed.

Lemma create_then_plain_delete_witness :
  row_save_ok acme empty_world = true /\
  exists self1 w1 w2,
    save calm acme empty_world = (Ok self1, w1) /\
    delete calm self1 false w1 = (Ok tt, w2) /\
    rows w2 = ∅ /\
    ("acme" ∈ catalog w2) /\
    log w2 = log w1 ++ [DeleteRow 1].
Proof.
  split; [reflexivity|].
  exact (create_then_plain_delete calm acme empty_world
           eq_refl eq_refl eq_refl eq_refl eq_refl eq_refl).
Defined.

(** *** A pre-drop receiver that raises *)

(** X18.  When a deletion is to drop the namespace and a pre-drop receiver
    raises, [delete] raises that error and neither drops the namespace
    nor deletes the row. *)
Theorem pre_drop_receiver_vetoes_delete E self force w e :
  force || auto_drop_schema self = true ->
  first_error (receivers E schema_pre_drop) self = Some e ->
  exists w',
    delete E self force w = (Raise e, w') /\
    rows w' = rows w /\ catalog w' = catalog w /\
    log w' = log w ++ [Send schema_pre_drop (pk self) (schema_name self)].
Proof.
  intros Hyes Hfe. destruct (pk self) as [k|] eqn:Hpk.
  - rewrite (delete_dropping_eq E self k) by done. rewrite Hfe. by eexists.
  - rewrite delete_unsaved_eq by done. rewrite Hyes, Hfe. by eexists.
Qed.

Lemma pre_drop_receiver_vetoes_delete_witness :
  exists w',
    delete ddl_down_loud acme_stored true acme_row_only = (Raise (ReceiverError 2), w') /\
    rows w' = rows acme_row_only /\ catalog w' = catalog acme_row_only /\
    log w' = [Send schema_pre_drop (Some 1) "acme"].
Proof.
  exact (pre_drop_receiver_vetoes_delete ddl_down_loud acme_stored true acme_row_only
           (ReceiverError 2) eq_refl eq_refl).
Defined.

(** *** Deleting an instance that was never saved *)

(** X19.  [delete] on an instance that was never saved raises and deletes
    no row; but when the namespace is to be dropped (and no pre-drop
    receiver raises) the namespace of that name is dropped before the
    error, since the drop comes first. *)
Theorem delete_unsaved_drops_then_raises E self force w :
  pk self = None ->
  exists e w',
    delete E self force w = (Raise e, w') /\
    rows w' = rows w /\
    (force || auto_drop_schema self = true ->
     quiet E schema_pre_drop self ->
     catalog w' = catalog w ∖ {[ schema_name self ]}) /\
    (force || auto_drop_schema self = false -> w' = w).
Proof.
  intros Hpk. rewrite delete_unsaved_eq by done.
  destruct (force || auto_drop_schema self).
  - destruct (first_error _ _) as [e|] eqn:Hfe.
    + eexists _, _. split; [done|]. split; [done|]. split; [|done].
      intros _ Hq. unfold quiet in Hq. congruence.
    + eexists _, _. split; [done|]. split; [done|]. split; done.
  - eexists _, _. split; [done|]. split; [done|]. split; done.
Qed.

Lemma delete_unsaved_drops_then_raises_witness :
  pk acme = None /\
  exists e w',
    delete calm acme true (World ∅ 1 {[ "acme" ]} []) = (Raise e, w') /\
    catalog w' = {[ "acme" ]} ∖ {[ "acme" ]}.
Proof.
  split; [reflexivity|].
  destruct (delete_unsaved_drops_then_raises calm acme true (World ∅ 1 {[ "acme" ]} [])
              eq_refl) as (e & w' & Hd & _ & Hdrop & _).
  exists e, w'. split; [exact Hd|]. exact (Hdrop eq_refl eq_refl).
Defined.

End TenantMixinMore.
(** ** Nested scopes *)

Module ScopesMore.
Import TenantMixin TenantMixinFacts.

(** A scope whose body leaves [previous_schema] alone, in closed form. *)
Lemma with_tenant_eq {A} l (body : M session A) s o :
  heap s !! l = Some o -> keeps_previous_schema l body ->
  with_tenant l body s =
  ((body (enter l s).2).1,
   Session (active s) (heap (body (enter l s).2).2)).
Proof.
  intros Ho Hkeep. unfold with_tenant. rewrite (enter_eq l s o Ho). cbn.
  set (s1 := Session _ _).
  destruct (Hkeep s1 (set_previous_schema o (active s))) as (o' & Ho' & Hp').
  { cbn. by rewrite lookup_insert_eq. }
  destruct (body s1) as [r s2]. cbn in *.
  by rewrite (exit_eq l s2 o' (active s) Ho' Hp').
Qed.

(** X20.  Scopes on two different instances nest: inside the inner scope
    the inner tenant's namespace is active, at its exit the outer
    tenant's namespace is active again, and at the exit of the outer
    scope the namespace from before; the result or error of the body
    comes out. *)
Theorem nested_scopes_unwind {A} l l' (body : M session A) s o o' :
  l ≠ l' -> heap s !! l = Some o -> heap s !! l' = Some o' ->
  keeps_previous_schema l body -> keeps_previous_schema l' body ->
  active (enter l' (enter l s).2).2 = schema_name o' /\
  active (with_tenant l' body (enter l s).2).2 = schema_name o /\
  active (with_tenant l (with_tenant l' body) s).2 = active s /\
  (with_tenant l (with_tenant l' body) s).1 = (body (enter l' (enter l s).2).2).1.
Proof.
  intros Hne Ho Ho' Hk Hk'.
  assert (heap (enter l s).2 !! l' = Some o') as Ho1.
  { rewrite (enter_eq l s o Ho). cbn. by rewrite lookup_insert_ne. }
  assert (active (enter l s).2 = schema_name o) as Ha1
    by (by rewrite (enter_eq l s o Ho)).
  pose proof (with_other_keeps l l' body Hne Hk) as Hkw.
  split; [by rewrite (enter_eq l' _ o' Ho1)|].
  rewrite (with_tenant_eq l (with_tenant l' body) s o Ho Hkw).
  rewrite (with_tenant_eq l' body (enter l s).2 o' Ho1 Hk'). cbn.
  rewrite Ha1. done.
Qed.

Lemma nested_scopes_unwind_witness :
  (heap (Session "public" {[ 0 := acme_stored; 1 := set_pk pg_acme 2 ]}) !! 1
     = Some (set_pk pg_acme 2)) /\
  active (with_tenant 1 (raise (DatabaseError 1) : M session unit)
            (enter 0 (Session "public" {[ 0 := acme_stored; 1 := set_pk pg_acme 2 ]})).2).2
    = "acme" /\
  active (with_tenant 0 (with_tenant 1 (raise (DatabaseError 1) : M session unit))
            (Session "public" {[ 0 := acme_stored; 1 := set_pk pg_acme 2 ]})).2
    = "public".
Proof.
  split; [reflexivity|].
  destruct (nested_scopes_unwind 0 1 (raise (DatabaseError 1) : M session unit)
              (Session "public" {[ 0 := acme_stored; 1 := set_pk pg_acme 2 ]})
              acme_stored (set_pk pg_acme 2)
              ltac:(discriminate) eq_refl eq_refl
              (raise_keeps 0 (DatabaseError 1)) (raise_keeps 1 (DatabaseError 1)))
    as (_ & H1 & H2 & _).
  split; [exact H1|exact H2].
Defined.

End ScopesMore.
(** ** dpgs_sandbox.settings.full *)

Module SettingsFacts.
Import Settings.

Example installed_apps_of_the_sandbox :
  INSTALLED_APPS =
    Found ["django_pgschemas"; "shared_public"; "django.contrib.auth";
           "django.contrib.contenttypes"; "django.contrib.staticfiles";
           "shared_common"; "app_main"; "django.contrib.sessions";
           "app_blog"; "app_tenants"] /\
  ROOT_URLCONF = Found (Str "app_tenants.urls").
Proof. split; by vm_compute. Qed.

(** [models.py] reads the tenant model for the foreign key of
    [DomainMixin] at [TENANTS["public"]["TENANT_MODEL"]]; these settings
    have it under ["default"]. *)
Example tenant_model_is_under_default :
  match getitem TENANTS "public" with
  | Found conf => getitem conf "TENANT_MODEL"
  | KeyError k => KeyError k
  end = KeyError "TENANT_MODEL" /\
  match getitem TENANTS "default" with
  | Found conf => getitem conf "TENANT_MODEL"
  | KeyError k => KeyError k
  end = Found (Str "shared_public.Tenant").
Proof. split; by vm_compute. Qed.

Lemma install_elem T schemas installed l :
  install T schemas installed = Found l ->
  forall x, x ∈ l <-> x ∈ installed \/ exists schema, schema ∈ schemas /\ lists T schema x.
Proof.
  revert installed. induction schemas as [|schema rest IH]; intros installed; cbn.
  - intros [= <-] x. split; [by left|]. intros [H|(s & Hs & _)]; [done|].
    by apply elem_of_nil in Hs.
  - unfold new_apps at 1.
    destruct (getitem T schema) as [conf|k] eqn:Hc; [|done].
    destruct (getitem conf "APPS") as [v|k] eqn:Hv; [|done].
    intros Hi x. rewrite (IH _ Hi x), elem_of_app, list_elem_of_filter. split.
    + intros [[H|[_ H]]|(s & Hs & Hl)].
      * by left.
      * right. exists schema. split; [by left|]. by exists conf, v.
      * right. exists s. split; [by right|done].
    + intros [H|(s & Hs & Hl)]; [by left; left|].
      apply elem_of_cons in Hs as [->|Hs]; [|right; by exists s].
      destruct Hl as (conf' & v' & Hc' & Hv' & Hx).
      rewrite Hc in Hc'. injection Hc' as <-. rewrite Hv in Hv'. injection Hv' as <-.
      left. destruct (decide (x ∈ installed)); [by left|by right].
Qed.

(** X21.  [INSTALLED_APPS] holds [django_pgschemas] and the apps that the
    schemas of [TENANTS] list under [APPS], and nothing else. *)
Theorem installed_apps_are_the_listed_apps T l :
  installed_apps T = Found l ->
  forall x, x ∈ l <->
    x = "django_pgschemas" \/ exists schema, schema ∈ keys T /\ lists T schema x.
Proof.
  intros Hi x. rewrite (install_elem _ _ _ _ Hi x).
  rewrite list_elem_of_singleton. done.
Qed.

Lemma installed_apps_are_the_listed_apps_witness :
  "app_blog" ∈ ["django_pgschemas"; "shared_public"; "django.contrib.auth";
           "django.contrib.contenttypes"; "django.contrib.staticfiles";
           "shared_common"; "app_main"; "django.contrib.sessions";
           "app_blog"; "app_tenants"] <->
  "app_blog" = "django_pgschemas" \/
  exists schema, schema ∈ keys TENANTS /\ lists TENANTS schema "app_blog".
Proof.
  exact (installed_apps_are_the_listed_apps TENANTS _
           (proj1 installed_apps_of_the_sandbox) "app_blog").
Defined.

Lemma install_nodup T schemas installed l :
  install T schemas installed = Found l ->
  NoDup installed ->
  (forall schema conf v,
     schema ∈ schemas -> getitem T schema = Found conf ->
     getitem conf "APPS" = Found v -> NoDup (iterate v)) ->
  NoDup l.
Proof.
  revert installed. induction schemas as [|schema rest IH]; intros installed; cbn.
  - by intros [= <-].
  - unfold new_apps at 1.
    destruct (getitem T schema) as [conf|k] eqn:Hc; [|done].
    destruct (getitem conf "APPS") as [v|k] eqn:Hv; [|done].
    intros Hi Hnd Hall. apply (IH _ Hi).
    + apply NoDup_app. split; [done|]. split.
      * intros x Hx Hf. apply list_elem_of_filter in Hf as [Hf _]. done.
      * apply NoDup_filter, (Hall schema conf v); [by left|done..].
    + intros s c v' Hs. apply Hall. by right.
Qed.

(** X22.  [INSTALLED_APPS] has no duplicates, provided that no [APPS] list
    names an app twice (a name twice in one list is kept twice). *)
Theorem installed_apps_have_no_duplicates T l :
  installed_apps T = Found l ->
  (forall schema conf v,
     schema ∈ keys T -> getitem T schema = Found conf ->
     getitem conf "APPS" = Found v -> NoDup (iterate v)) ->
  NoDup l.
Proof.
  intros Hi Hall. apply (install_nodup _ _ _ _ Hi); [|done].
  apply NoDup_singleton.
Qed.

(** A name written twice in one [APPS] list is installed twice: the
    comprehension is tested against the list as it was before. *)
Example duplicate_within_a_list_stays :
  installed_apps [("public", [("APPS", Lst ["shared"; "shared"])])]
    = Found ["django_pgschemas"; "shared"; "shared"].
Proof. by vm_compute. Qed.

Lemma getitem_key {V} (d : dict V) key k : getitem d key = KeyError k -> k = key.
Proof.
  induction d as [|[k' v] d IH]; cbn; [by intros [= <-]|].
  by destruct (decide (k' = key)).
Qed.

Lemma getitem_keys {V} (d : dict V) key :
  key ∈ keys d -> exists v, getitem d key = Found v.
Proof.
  unfold keys. induction d as [|[k' v] d IH]; cbn; [by intros ?%elem_of_nil|].
  intros Hk. destruct (decide (k' = key)); [by eexists|].
  apply elem_of_cons in Hk as [->|Hk]; [done|]. by apply IH.
Qed.

Lemma install_key_error T schemas installed k :
  (forall schema, schema ∈ schemas -> schema ∈ keys T) ->
  install T schemas installed = KeyError k ->
  k = "APPS" /\
  exists schema conf, schema ∈ schemas /\ getitem T schema = Found conf /\
                      getitem conf "APPS" = KeyError "APPS".
Proof.
  revert installed. induction schemas as [|schema rest IH]; intros installed Hin; cbn;
    [done|].
  unfold new_apps at 1.
  destruct (getitem_keys T schema) as [conf Hc]; [apply Hin; by left|].
  rewrite Hc. destruct (getitem conf "APPS") as [v|k'] eqn:Hv.
  - intros Hi. destruct (IH _ (fun s Hs => Hin s (list_elem_of_further _ _ _ Hs)) Hi)
      as (-> & s & c & Hs & Hsc & Hk).
    split; [done|]. exists s, c. split; [by right|done].
  - intros [= <-]. pose proof (getitem_key _ _ _ Hv) as ->.
    split; [done|]. exists schema, conf. split; [by left|done].
Qed.

Lemma install_found T schemas installed :
  (forall schema conf, schema ∈ schemas -> getitem T schema = Found conf ->
                       exists v, getitem conf "APPS" = Found v) ->
  (forall schema, schema ∈ schemas -> schema ∈ keys T) ->
  exists l, install T schemas installed = Found l.
Proof.
  revert installed. induction schemas as [|schema rest IH]; intros installed Hall Hin; cbn;
    [by eexists|].
  unfold new_apps at 1.
  destruct (getitem_keys T schema) as [conf Hc]; [apply Hin; by left|].
  rewrite Hc. destruct (Hall schema conf) as [v Hv]; [by left|done|]. rewrite Hv.
  apply IH.
  - intros s c Hs. apply Hall. by right.
  - intros s Hs. apply Hin. by right.
Qed.

(** X23.  The loop builds [INSTALLED_APPS] exactly when every schema of
    [TENANTS] has an [APPS] entry; otherwise it raises [KeyError], and
    the key is [APPS]. *)
Theorem installed_apps_need_every_apps_key T :
  ((exists l, installed_apps T = Found l) <->
   (forall schema conf, schema ∈ keys T -> getitem T schema = Found conf ->
                        exists v, getitem conf "APPS" = Found v)) /\
  (forall k, installed_apps T = KeyError k -> k = "APPS").
Proof.
  split; [split|].
  - intros [l Hl] schema conf Hs Hc.
    destruct (getitem conf "APPS") as [v|k] eqn:Hv; [by eexists|]. exfalso.
    assert (forall schemas installed,
              schema ∈ schemas -> exists k', install T schemas installed = KeyError k')
      as Hfail.
    { induction schemas as [|s rest IH]; intros installed Hin; cbn;
        [by apply elem_of_nil in Hin|].
      unfold new_apps at 1. destruct (decide (s = schema)) as [->|Hne].
      - rewrite Hc, Hv. by eexists.
      - apply elem_of_cons in Hin as [->|Hin]; [done|].
        destruct (getitem T s) as [c|]; [|by eexists].
        destruct (getitem c "APPS"); [|by eexists]. by apply IH. }
    destruct (Hfail (keys T) ["django_pgschemas"] Hs) as [k' Hk'].
    unfold installed_apps in Hl. congruence.
  - intros Hall. by apply install_found.
  - intros k Hk. by apply (install_key_error T (keys T) ["django_pgschemas"] k).
Qed.

Lemma installed_apps_have_no_duplicates_witness :
  INSTALLED_APPS =
    Found ["django_pgschemas"; "shared_public"; "django.contrib.auth";
           "django.contrib.contenttypes"; "django.contrib.staticfiles";
           "shared_common"; "app_main"; "django.contrib.sessions";
           "app_blog"; "app_tenants"] /\
  NoDup ["django_pgschemas"; "shared_public"; "django.contrib.auth";
         "django.contrib.contenttypes"; "django.contrib.staticfiles";
         "shared_common"; "app_main"; "django.contrib.sessions";
         "app_blog"; "app_tenants"].
Proof.
  split; [by vm_compute|].
  apply (installed_apps_have_no_duplicates TENANTS); [by vm_compute|].
  intros schema conf v Hs Hc Hv. unfold keys, TENANTS in Hs. cbn in Hs.
  repeat (apply elem_of_cons in Hs as [->|Hs];
          [vm_compute in Hc; injection Hc as <-; vm_compute in Hv; injection Hv as <-;
           apply (bool_decide_unpack _); by vm_compute|]).
  by apply elem_of_nil in Hs.
Defined.

End SettingsFacts.
